(** * SSE event-stream client of the SQL-generator front end

    A shallow embedding of [services/backendService.ts]
    ([BackendService.streamAgentResponse], [BackendService.executeSql]) and of
    the event loop of [handleSendMessage] in [App.tsx], together with the
    properties of the streaming parser, of its resource handling and of the
    chat-session update rules.

    Platform services the TypeScript code calls ([String.prototype.trim],
    [JSON.parse], [TextDecoder], [fetch], the stream reader) are modelled in
    the modules [JS], [JSON], [TextDecoder] and by explicit records for the
    network's answers.  Console output is not modelled. *)

From Stdlib Require Import List NArith ZArith Bool Lia.
From Stdlib Require String Ascii DecimalString.
Import ListNotations.

Import String.StringSyntax.
Local Open Scope string_scope.

Set Implicit Arguments.

(* ================================================================== *)
(** * ECMAScript values used by the client *)
(* ================================================================== *)

Module JS.

(** A JavaScript string is a sequence of UTF-16 code units. *)
Definition jsstring := list N.

(** A string literal of the source, as code units. *)
Definition lit (s : String.string) : jsstring :=
  map Ascii.N_of_ascii (String.list_ascii_of_string s).

Definition LF : N := 10%N.

Fixpoint eqb (s t : jsstring) : bool :=
  match s, t with
  | [], [] => true
  | c :: s', d :: t' => N.eqb c d && eqb s' t'
  | _, _ => false
  end.

(** [WhiteSpace] and [LineTerminator] code points (ECMA-262, 12.2 and
    12.3): the characters [String.prototype.trim] removes. *)
Definition isWhiteSpace (c : N) : bool :=
  ((c =? 9) || (c =? 10) || (c =? 11) || (c =? 12) || (c =? 13)
   || (c =? 32) || (c =? 160) || (c =? 5760)
   || ((8192 <=? c) && (c <=? 8202))
   || (c =? 8232) || (c =? 8233) || (c =? 8239) || (c =? 8287)
   || (c =? 12288) || (c =? 65279))%N.

Fixpoint trimStart (s : jsstring) : jsstring :=
  match s with
  | [] => []
  | c :: s' => if isWhiteSpace c then trimStart s' else s
  end.

Definition trimEnd (s : jsstring) : jsstring := rev (trimStart (rev s)).

(** [s.trim()] *)
Definition trim (s : jsstring) : jsstring := trimEnd (trimStart s).

(** [s.startsWith(p)] *)
Fixpoint startsWith (s p : jsstring) {struct p} : bool :=
  match p with
  | [] => true
  | c :: p' =>
      match s with
      | [] => false
      | d :: s' => N.eqb d c && startsWith s' p'
      end
  end.

(** [s.substring(n)] *)
Definition substring (s : jsstring) (n : nat) : jsstring := skipn n s.

(** [s.split('\n')]: the segments between line feeds; a string with [k]
    line feeds has [k + 1] segments, so the result is never empty. *)
Fixpoint split (s : jsstring) : list jsstring :=
  match s with
  | [] => [[]]
  | c :: s' =>
      if N.eqb c LF then [] :: split s'
      else match split s' with
           | seg :: segs => (c :: seg) :: segs
           | [] => [[c]]
           end
  end.

(** [String(n)] for a non-negative integer. *)
Definition ofN (n : N) : jsstring :=
  lit (DecimalString.NilEmpty.string_of_uint (N.to_uint n)).

(** The mathematical value [mantissa * 10 ^ exponent] of a JSON number
    literal; the Number value is its rounding to binary64. *)
Record Number : Type := mkNumber { mantissa : Z; exponent : Z }.

(** Whether the literal denotes [+0] or [-0]: its value is zero or rounds
    to zero, i.e. is at most half the least subnormal, [2 ^ -1075]. *)
Definition isZero (n : Number) : bool :=
  if (0 <=? exponent n)%Z then (mantissa n =? 0)%Z
  else (Z.abs (mantissa n) * 2 ^ 1075 <=? 10 ^ (- exponent n))%Z.

(** The values [JSON.parse] can return. *)
#[warnings="-register-all"]
Inductive Value : Type :=
| Null
| Boolean (b : bool)
| Num (n : Number)
| Str (s : jsstring)
| Array (elements : list Value)
| Object (properties : list (jsstring * Value)).

(** Error objects: constructor name and [message]. *)
Record Error : Type := mkError { name : jsstring; message : jsstring }.

(** Completion of an evaluation that may throw. *)
Inductive Completion (A : Type) : Type :=
| Normal (a : A)
| Throw (e : Error).
Arguments Normal {A} a.
Arguments Throw {A} e.

Definition bind {A B} (m : Completion A) (k : A -> Completion B)
  : Completion B :=
  match m with
  | Normal a => k a
  | Throw e => Throw e
  end.

(** Own property [k] of an object literal: the last definition wins. *)
Fixpoint lookup (props : list (jsstring * Value)) (k : jsstring)
  : option Value :=
  match props with
  | [] => None
  | (k', v) :: rest =>
      match lookup rest k with
      | Some w => Some w
      | None => if eqb k' k then Some v else None
      end
  end.

Definition TypeError : Error :=
  mkError (lit "TypeError")
          (lit "Cannot read properties of null").

(** [v.k] for one of the payload field names of the client; [None] is
    [undefined].  None of these names is a property of the Array, String,
    Number, Boolean or Object prototypes, so only own properties of
    objects are found; reading a property of [null] throws. *)
Definition Get (v : Value) (k : jsstring) : Completion (option Value) :=
  match v with
  | Null => Throw TypeError
  | Object props => Normal (lookup props k)
  | _ => Normal None
  end.

(** [x !== undefined] *)
Definition defined (x : option Value) : bool :=
  match x with Some _ => true | None => false end.

(** ToBoolean *)
Definition ToBoolean (x : option Value) : bool :=
  match x with
  | None => false
  | Some Null => false
  | Some (Boolean b) => b
  | Some (Num n) => negb (isZero n)
  | Some (Str s) => match s with [] => false | _ => true end
  | Some (Array _) => true
  | Some (Object _) => true
  end.

(** ToBoolean of a string. *)
Definition nonEmpty (s : jsstring) : bool :=
  match s with [] => false | _ => true end.

End JS.

Declare Scope js_scope.
Delimit Scope js_scope with js.
Notation "x <- m ;; k" := (JS.bind m (fun x => k))
  (at level 61, m at next level, right associativity) : js_scope.

(* ================================================================== *)
(** * [JSON.parse] (ECMA-262, 25.5.1; the grammar of ECMA-404) *)
(* ================================================================== *)

Module JSON.
Import JS.
Local Open Scope N_scope.

Definition isJSONWhiteSpace (c : N) : bool :=
  (c =? 9) || (c =? 10) || (c =? 13) || (c =? 32).

Fixpoint skipWS (s : jsstring) : jsstring :=
  match s with
  | c :: s' => if isJSONWhiteSpace c then skipWS s' else s
  | [] => []
  end.

Definition isDigit (c : N) : bool := (48 <=? c) && (c <=? 57).

(** The longest prefix of decimal digits, as digit values. *)
Fixpoint digits (s : jsstring) : list N * jsstring :=
  match s with
  | c :: s' =>
      if isDigit c then let (ds, r) := digits s' in ((c - 48) :: ds, r)
      else ([], s)
  | [] => ([], [])
  end.

Definition valueOfDigits (ds : list N) : Z :=
  fold_left (fun acc d => (10 * acc + Z.of_N d)%Z) ds 0%Z.

Definition hexDigit (c : N) : option N :=
  if isDigit c then Some (c - 48)
  else if (97 <=? c) && (c <=? 102) then Some (c - 87)
  else if (65 <=? c) && (c <=? 70) then Some (c - 55)
  else None.

Definition hex4 (a b c d : N) : option N :=
  match hexDigit a, hexDigit b, hexDigit c, hexDigit d with
  | Some x, Some y, Some z, Some w => Some (((x * 16 + y) * 16 + z) * 16 + w)
  | _, _, _, _ => None
  end.

(** The character after a backslash, [u] apart. *)
Definition simpleEscape (e : N) : option N :=
  if e =? 34 then Some 34          (* quotation mark *)
  else if e =? 92 then Some 92     (* reverse solidus *)
  else if e =? 47 then Some 47     (* solidus *)
  else if e =? 98 then Some 8      (* b *)
  else if e =? 102 then Some 12    (* f *)
  else if e =? 110 then Some 10    (* n *)
  else if e =? 114 then Some 13    (* r *)
  else if e =? 116 then Some 9     (* t *)
  else None.

(** The characters of a string up to its closing quotation mark; [acc] is
    the text read so far, reversed. *)
Fixpoint stringChars (s : jsstring) (acc : jsstring)
  : option (jsstring * jsstring) :=
  match s with
  | [] => None
  | c :: r =>
      if c =? 34 then Some (rev acc, r)
      else if c =? 92 then
        match r with
        | [] => None
        | e :: r1 =>
            if e =? 117 then
              match r1 with
              | h1 :: h2 :: h3 :: h4 :: r2 =>
                  match hex4 h1 h2 h3 h4 with
                  | Some u => stringChars r2 (u :: acc)
                  | None => None
                  end
              | _ => None
              end
            else
              match simpleEscape e with
              | Some u => stringChars r1 (u :: acc)
              | None => None
              end
        end
      else if c <? 32 then None
      else stringChars r (c :: acc)
  end.

(** [s] without its first code unit when that is [c]. *)
Definition accept (c : N) (s : jsstring) : option jsstring :=
  match s with
  | d :: r => if d =? c then Some r else None
  | [] => None
  end.

(** An optional minus sign. *)
Definition minus (s : jsstring) : bool * jsstring :=
  match accept 45 s with
  | Some r => (true, r)
  | None => (false, s)
  end.

(** The integer part: a zero, or a non-zero digit followed by digits. *)
Definition intPart (s : jsstring) : option (list N * jsstring) :=
  match s with
  | c :: r =>
      if c =? 48 then Some ([0], r)
      else if isDigit c then Some (digits s)
      else None
  | [] => None
  end.

(** The optional fraction: a point and at least one digit. *)
Definition fracPart (s : jsstring) : option (list N * jsstring) :=
  match accept 46 s with
  | Some r =>
      match digits r with
      | ([], _) => None
      | (fds, r') => Some (fds, r')
      end
  | None => Some ([], s)
  end.

(** The optional exponent: [e] or [E], an optional sign, at least one
    digit. *)
Definition expPart (s : jsstring) : option (Z * jsstring) :=
  match s with
  | c :: r =>
      if (c =? 101) || (c =? 69) then
        let (eneg, r1) :=
          match accept 45 r, accept 43 r with
          | Some r', _ => (true, r')
          | None, Some r' => (false, r')
          | None, None => (false, r)
          end in
        match digits r1 with
        | ([], _) => None
        | (eds, r2) =>
            let e := valueOfDigits eds in
            Some ((if eneg then - e else e)%Z, r2)
        end
      else Some (0%Z, s)
  | [] => Some (0%Z, s)
  end.

(** A number literal. *)
Definition number (s : jsstring) : option (Number * jsstring) :=
  let (neg, s1) := minus s in
  match intPart s1 with
  | None => None
  | Some (ids, s2) =>
      match fracPart s2 with
      | None => None
      | Some (fds, s3) =>
          match expPart s3 with
          | None => None
          | Some (e, s4) =>
              let m := valueOfDigits (ids ++ fds) in
              Some (mkNumber (if neg then - m else m)%Z
                             (e - Z.of_nat (length fds))%Z, s4)
          end
      end
  end.

(** [value], [elements] (after an opening bracket or a comma) and [members]
    (likewise) of the JSON grammar; each call consumes input, so a fuel of
    the length of the text suffices. *)
Fixpoint value (fuel : nat) (s : jsstring) : option (Value * jsstring) :=
  match fuel with
  | O => None
  | S fuel' =>
      match skipWS s with
      | [] => None
      | c :: r =>
          if c =? 123 then                       (* left brace *)
            match accept 125 (skipWS r) with
            | Some r' => Some (Object [], r')
            | None =>
                match members fuel' r with
                | Some (ps, r') => Some (Object ps, r')
                | None => None
                end
            end
          else if c =? 91 then                   (* left bracket *)
            match accept 93 (skipWS r) with
            | Some r' => Some (Array [], r')
            | None =>
                match elements fuel' r with
                | Some (vs, r') => Some (Array vs, r')
                | None => None
                end
            end
          else if c =? 34 then                   (* quotation mark *)
            match stringChars r [] with
            | Some (t, r') => Some (Str t, r')
            | None => None
            end
          else if startsWith (c :: r) (lit "true") then
            Some (Boolean true, skipn 4 (c :: r))
          else if startsWith (c :: r) (lit "false") then
            Some (Boolean false, skipn 5 (c :: r))
          else if startsWith (c :: r) (lit "null") then
            Some (Null, skipn 4 (c :: r))
          else
            match number (c :: r) with
            | Some (n, r') => Some (Num n, r')
            | None => None
            end
      end
  end
with elements (fuel : nat) (s : jsstring)
  : option (list Value * jsstring) :=
  match fuel with
  | O => None
  | S fuel' =>
      match value fuel' s with
      | None => None
      | Some (v, r) =>
          match accept 93 (skipWS r), accept 44 (skipWS r) with
          | Some r', _ => Some ([v], r')
          | None, Some r' =>
              match elements fuel' r' with
              | Some (vs, r'') => Some (v :: vs, r'')
              | None => None
              end
          | None, None => None
          end
      end
  end
with members (fuel : nat) (s : jsstring)
  : option (list (jsstring * Value) * jsstring) :=
  match fuel with
  | O => None
  | S fuel' =>
      match accept 34 (skipWS s) with
      | None => None
      | Some r =>
          match stringChars r [] with
          | None => None
          | Some (k, r1) =>
              match accept 58 (skipWS r1) with
              | None => None
              | Some r2 =>
                  match value fuel' r2 with
                  | None => None
                  | Some (v, r3) =>
                      match accept 125 (skipWS r3), accept 44 (skipWS r3) with
                      | Some r4, _ => Some ([(k, v)], r4)
                      | None, Some r4 =>
                          match members fuel' r4 with
                          | Some (ps, r5) => Some ((k, v) :: ps, r5)
                          | None => None
                          end
                      | None, None => None
                      end
                  end
              end
          end
      end
  end.

(** [JSON.parse(text)]: [None] stands for the SyntaxError it throws. *)
Definition parse (text : jsstring) : option Value :=
  match value (S (length text)) text with
  | Some (v, r) =>
      match skipWS r with
      | [] => Some v
      | _ => None
      end
  | None => None
  end.

End JSON.

(** A JSON text written with apostrophes for its quotation marks. *)
Definition json (s : String.string) : JS.jsstring :=
  map (fun c => if N.eqb c 39 then 34%N else c) (JS.lit s).


(* ================================================================== *)
(** * [TextDecoder] for UTF-8, as [decode(value, { stream: true })]
      (WHATWG Encoding Standard, 4.1 and 8.1.1) *)
(* ================================================================== *)

Module TextDecoder.
Import JS.
Local Open Scope N_scope.

(** The state a decoder keeps between calls. *)
Record State : Type := mkState {
  codePoint : N;
  bytesSeen : N;
  bytesNeeded : N;
  lowerBoundary : N;
  upperBoundary : N;
  BOMseen : bool
}.

Definition initial : State := mkState 0 0 0 128 191 false.

Definition reset (st : State) : State :=
  mkState 0 0 0 128 191 (BOMseen st).

Definition REPLACEMENT : N := 65533.

(** One byte while no sequence is open. *)
Definition lead (st : State) (b : N) : State * list N :=
  if b <=? 127 then (st, [b])
  else if (194 <=? b) && (b <=? 223) then
    (mkState (N.land b 31) 0 1 128 191 (BOMseen st), [])
  else if (224 <=? b) && (b <=? 239) then
    (mkState (N.land b 15) 0 2
             (if b =? 224 then 160 else 128)
             (if b =? 237 then 159 else 191) (BOMseen st), [])
  else if (240 <=? b) && (b <=? 244) then
    (mkState (N.land b 7) 0 3
             (if b =? 240 then 144 else 128)
             (if b =? 244 then 143 else 191) (BOMseen st), [])
  else (st, [REPLACEMENT]).

(** The decoder's handler, with the byte of a broken sequence processed
    again; the result lists the code points emitted. *)
Definition handler (st : State) (b : N) : State * list N :=
  if bytesNeeded st =? 0 then lead st b
  else if negb ((lowerBoundary st <=? b) && (b <=? upperBoundary st)) then
    let (st', out) := lead (reset st) b in (st', REPLACEMENT :: out)
  else
    let cp := N.lor (N.shiftl (codePoint st) 6) (N.land b 63) in
    if bytesSeen st + 1 =? bytesNeeded st then (reset st, [cp])
    else (mkState cp (bytesSeen st + 1) (bytesNeeded st) 128 191 (BOMseen st),
          []).

(** The code units of a code point. *)
Definition codeUnits (cp : N) : jsstring :=
  if cp <? 65536 then [cp]
  else [55296 + N.shiftr (cp - 65536) 10; 56320 + N.land (cp - 65536) 1023].

(** Serialisation of the emitted code points: a byte order mark at the very
    start of the stream is dropped. *)
Fixpoint serialize (seen : bool) (cps : list N) : bool * jsstring :=
  match cps with
  | [] => (seen, [])
  | cp :: rest =>
      let (seen', text) := serialize true rest in
      if negb seen && (cp =? 65279) then (seen', text)
      else (seen', codeUnits cp ++ text)
  end.

Definition step (st : State) (b : Byte.byte) : State * jsstring :=
  let (st1, cps) := handler st (Byte.to_N b) in
  let (seen, text) := serialize (BOMseen st1) cps in
  (mkState (codePoint st1) (bytesSeen st1) (bytesNeeded st1)
           (lowerBoundary st1) (upperBoundary st1) seen, text).

(** [decoder.decode(value, { stream: true })] *)
Fixpoint decode (st : State) (value : list Byte.byte) : State * jsstring :=
  match value with
  | [] => (st, [])
  | b :: rest =>
      let (st1, t1) := step st b in
      let (st2, t2) := decode st1 rest in
      (st2, t1 ++ t2)
  end.

End TextDecoder.

(** The bytes of an ASCII text. *)
Definition bytes (s : JS.jsstring) : list Byte.byte :=
  map (fun c => match Byte.of_N c with Some b => b | None => Byte.x00 end) s.


(* ================================================================== *)
(** * [services/backendService.ts] *)
(* ================================================================== *)

Module BackendService.
Import JS.
Local Open Scope js_scope.

(** ** The network as the client sees it *)

(** What [fetch] is called with; [body] is the value handed to
    [JSON.stringify]. *)
Record Request : Type := mkRequest {
  url : jsstring;
  method : jsstring;
  headers : list (jsstring * jsstring);
  requestBody : option Value
}.

(** One [reader.read()]: a chunk of bytes, or a rejection; the end of the
    list is [{ done: true }]. *)
Inductive ReadResult : Type :=
| Chunk (value : list Byte.byte)
| ReadRejects (e : Error).

(** [response.body.getReader()]: the reads it will answer, and whether its
    [releaseLock()] throws. *)
Record Reader : Type := mkReader {
  reads : list ReadResult;
  releaseLock : option Error
}.

Record Response : Type := mkResponse {
  ok : bool;
  status : N;
  body : option Reader;
  responseJson : Completion Value      (* [await response.json()] *)
}.

(** The lock on the response body. *)
Inductive Lock : Type := NotAcquired | Held | Released.

Definition DEFAULT_BACKEND_URL : jsstring := lit "http://localhost:8005".

(** [(import.meta.env.VITE_BACKEND_URL || DEFAULT_BACKEND_URL).trim()] *)
Definition BACKEND_URL (VITE_BACKEND_URL : option jsstring) : jsstring :=
  trim (match VITE_BACKEND_URL with
        | Some u => if nonEmpty u then u else DEFAULT_BACKEND_URL
        | None => DEFAULT_BACKEND_URL
        end).

Definition getHeaders (authToken : option jsstring) (includeAuth : bool)
  : list (jsstring * jsstring) :=
  let headers := [(lit "Content-Type", lit "application/json")] in
  match authToken with
  | Some token =>
      if includeAuth && nonEmpty token
      then headers ++ [(lit "Authorization", lit "Bearer " ++ token)]
      else headers
  | None => headers
  end.

(** ** The event type *)

Record SSEEvent : Type := mkSSEEvent { event : jsstring; data : Value }.

(** [a && b], where [b] is evaluated only when [a] holds. *)
Definition andAlso (a : bool) (b : Completion bool) : Completion bool :=
  if a then b else Normal false.

(** The fallback inference of the tag from the payload: the chain of
    conditionals under [if (!currentEvent)], entered with [eventType] at
    its default. *)
Definition inferEventType (eventType : jsstring) (data : Value)
  : Completion jsstring :=
  finalText <- Get data (lit "finalText") ;;
  if defined finalText then Normal (lit "done") else
  message <- Get data (lit "message") ;;
  isError <- andAlso (ToBoolean message)
               (textDelta <- Get data (lit "textDelta") ;;
                Normal (negb (ToBoolean textDelta))) ;;
  if isError then Normal (lit "error") else
  sql <- Get data (lit "sql") ;;
  isSql <- andAlso (defined sql)
             (textDelta <- Get data (lit "textDelta") ;;
              Normal (negb (defined textDelta))) ;;
  if isSql then Normal (lit "sql") else
  name <- Get data (lit "name") ;;
  isTool <- andAlso (ToBoolean name)
              (status <- Get data (lit "status") ;;
               Normal (ToBoolean status)) ;;
  if isTool then Normal (lit "tool") else
  usedChars <- Get data (lit "usedChars") ;;
  if defined usedChars then Normal (lit "context") else
  newChatId <- Get data (lit "newChatId") ;;
  if ToBoolean newChatId then Normal (lit "chat_rollover")
  else Normal eventType.

(** ToBoolean of [currentEvent], which is [null] or a string. *)
Definition labelSet (currentEvent : option jsstring) : bool :=
  match currentEvent with
  | Some label => nonEmpty label
  | None => false
  end.

(** The body of [for (const line of lines)] for one line: the new value of
    [currentEvent] and the event yielded, if any.  A SyntaxError of
    [JSON.parse] and a TypeError of the inference are caught by the [catch]
    around them, which leaves [currentEvent] as it is. *)
Definition processLine (currentEvent : option jsstring) (line : jsstring)
  : option jsstring * option SSEEvent :=
  if startsWith line (lit "event: ") then
    (Some (trim (substring line 7)), None)
  else if startsWith line (lit "data: ") then
    let dataStr := trim (substring line 6) in
    if negb (nonEmpty dataStr) then (currentEvent, None)
    else
      match JSON.parse dataStr with
      | None => (currentEvent, None)
      | Some data =>
          let eventType :=
            match currentEvent with
            | Some label => if nonEmpty label then label else lit "delta"
            | None => lit "delta"
            end in
          match (if negb (labelSet currentEvent)
                 then inferEventType eventType data
                 else Normal eventType) with
          | Normal eventType' => (None, Some (mkSSEEvent eventType' data))
          | Throw _ => (currentEvent, None)
          end
      end
  else (currentEvent, None).

(** [lines.pop() || ''] with the lines left in the array. *)
Definition pop (lines : list jsstring) : list jsstring * jsstring :=
  (removelast lines, last lines []).

(** [buffer += text; lines = buffer.split('\n'); buffer = lines.pop() || '']:
    the lines to parse and the new residual buffer. *)
Definition feed (buffer text : jsstring) : list jsstring * jsstring :=
  pop (split (buffer ++ text)).

(** ** The generator and its consumer

    A [for await] loop over the generator is modelled with the loop body as
    a function of the consumer's state: at each [yield] the body runs and
    says whether the loop goes on, is left by [break] or [return], or
    throws; in the last two cases the generator is closed at that [yield]. *)

Inductive Control (C : Type) : Type :=
| Continue (c : C)
| Break (c : C)
| Raise (c : C) (e : Error).
Arguments Continue {C} c.
Arguments Break {C} c.
Arguments Raise {C} c e.

(** How the [try] block of the generator is left. *)
Inductive Exit (C : Type) : Type :=
| Done (c : C)                  (* [if (done) break] *)
| Failed (c : C) (e : Error)    (* an exception leaves the block *)
| Closed (c : C) (e : option Error).
                                (* the consumer stopped at a [yield] *)
Arguments Done {C} c.
Arguments Failed {C} c e.
Arguments Closed {C} c e.

(** What is observed once the loop is over. *)
Record Outcome (C : Type) : Type := mkOutcome {
  consumer : C;                  (* the consumer's final state *)
  generator : Completion unit;   (* completion of the generator's code *)
  loop : Completion unit;        (* completion of the [for await] *)
  lock : Lock
}.

Section ForAwait.

Variable C : Type.
Variable loopBody : C -> SSEEvent -> Control C.

(** [for (const line of lines) { ... }] *)
Fixpoint forLines (currentEvent : option jsstring) (lines : list jsstring)
  (c : C) : Control C :=
  match lines with
  | [] => Continue c
  | line :: rest =>
      match processLine currentEvent line with
      | (currentEvent', None) => forLines currentEvent' rest c
      | (currentEvent', Some ev) =>
          match loopBody c ev with
          | Continue c' => forLines currentEvent' rest c'
          | stop => stop
          end
      end
  end.

(** [while (true) { ... }] *)
Fixpoint whileRead (rs : list ReadResult) (decoder : TextDecoder.State)
  (buffer : jsstring) (c : C) : Exit C :=
  match rs with
  | [] => Done c
  | ReadRejects e :: _ => Failed c e
  | Chunk value :: rs' =>
      let (decoder', text) := TextDecoder.decode decoder value in
      let (lines, buffer') := feed buffer text in
      match forLines None lines c with
      | Continue c' => whileRead rs' decoder' buffer' c'
      | Break c' => Closed c' None
      | Raise c' e => Closed c' (Some e)
      end
  end.

(** [try { ... } finally { reader.releaseLock(); }] and the completion of
    the loop that consumes the generator. *)
Definition tryFinally (reader : Reader) (c : C) : Outcome C :=
  let exit := whileRead (reads reader) TextDecoder.initial [] c in
  let '(c', fromTry, thrownByBody) :=
    match exit with
    | Done c' => (c', Normal tt, None)
    | Failed c' e => (c', Throw e, None)
    | Closed c' e => (c', Normal tt, e)
    end in
  let (afterFinally, lock') :=
    match releaseLock reader with
    | Some e => (Throw e, Held)
    | None => (fromTry, Released)
    end in
  mkOutcome c' afterFinally
            (match thrownByBody with
             | Some e => Throw e
             | None => afterFinally
             end)
            lock'.

Variable fetch : Request -> Completion Response.
Variable VITE_BACKEND_URL : option jsstring.
Variable authToken : option jsstring.

Definition streamRequest (message chatId : jsstring) : Request :=
  mkRequest (BACKEND_URL VITE_BACKEND_URL ++ lit "/api/agent/stream")
            (lit "POST")
            (getHeaders authToken true)
            (Some (Object [(lit "message", Str message);
                           (lit "chat_id", Str chatId)])).

(** [for await (const event of streamAgentResponse(message, chatId))] *)
Definition streamAgentResponse (message chatId : jsstring) (c : C)
  : Outcome C :=
  let failed e := mkOutcome c (Throw e) (Throw e) NotAcquired in
  match fetch (streamRequest message chatId) with
  | Throw e => failed e
  | Normal response =>
      if negb (ok response) then
        failed (mkError (lit "Error")
                        (lit "HTTP error! status: " ++ ofN (status response)))
      else
        match body response with
        | None => failed (mkError (lit "Error") (lit "No response body"))
        | Some reader => tryFinally reader c
        end
  end.

End ForAwait.

(** ** The events a stream yields

    The consumer that keeps every event and never leaves the loop, and the
    one that leaves by [break] on receiving its [n]-th event. *)

Definition keep (evs : list SSEEvent) (ev : SSEEvent)
  : Control (list SSEEvent) :=
  Continue (evs ++ [ev]).

Definition breakAt (n : nat) (evs : list SSEEvent) (ev : SSEEvent)
  : Control (list SSEEvent) :=
  if Nat.eqb (S (length evs)) n then Break (evs ++ [ev])
  else Continue (evs ++ [ev]).

Definition throwAt (n : nat) (e : Error) (evs : list SSEEvent)
  (ev : SSEEvent) : Control (list SSEEvent) :=
  if Nat.eqb (S (length evs)) n then Raise (evs ++ [ev]) e
  else Continue (evs ++ [ev]).

(** The state a [Control] carries. *)
Definition stateOf {C : Type} (k : Control C) : C :=
  match k with
  | Continue c => c
  | Break c => c
  | Raise c _ => c
  end.

(** The events yielded for the complete lines of one chunk, with
    [currentEvent] as it is when the loop over the lines starts. *)
Definition lineEvents (currentEvent : option jsstring)
  (lines : list jsstring) : list SSEEvent :=
  stateOf (forLines keep currentEvent lines []).

(** The events yielded for a sequence of chunks, read to the end. *)
Definition streamEvents (chunks : list (list Byte.byte)) : list SSEEvent :=
  consumer (tryFinally keep (mkReader (map Chunk chunks) None) []).

(** The text each read contributes, and the lines parsed after each read. *)
Fixpoint decodeAll (decoder : TextDecoder.State)
  (chunks : list (list Byte.byte)) : list jsstring :=
  match chunks with
  | [] => []
  | value :: rest =>
      let (decoder', text) := TextDecoder.decode decoder value in
      text :: decodeAll decoder' rest
  end.

Fixpoint chunkLines (buffer : jsstring) (texts : list jsstring)
  : list (list jsstring) :=
  match texts with
  | [] => []
  | text :: rest =>
      let (lines, buffer') := feed buffer text in
      lines :: chunkLines buffer' rest
  end.

(** ** [executeSql] *)

Record SupabaseConfig : Type := mkSupabaseConfig {
  projectRef : jsstring;
  accessToken : jsstring
}.

(** What [executeSql] resolves to: an object literal of the client, with
    the value of each of its properties, or the body of the response as the
    back end sent it. *)
Inductive ExecutionResult : Type :=
| Result (success : bool) (message : Value) (data : option Value)
| ResponseBody (data : Value).

(** [try { ... } catch (error) { ... }] *)
Definition tryCatch {A : Type} (block : Completion A)
  (handler : Error -> Completion A) : Completion A :=
  match block with
  | Normal a => Normal a
  | Throw e => handler e
  end.

Section ExecuteSql.

Variable fetch : Request -> Completion Response.
Variable VITE_BACKEND_URL : option jsstring.
Variable authToken : option jsstring.

Definition executeRequest (config : SupabaseConfig) (sql : jsstring)
  : Request :=
  mkRequest (BACKEND_URL VITE_BACKEND_URL ++ lit "/api/supabase/execute-sql")
            (lit "POST")
            (getHeaders authToken false)
            (Some (Object [(lit "projectRef", Str (projectRef config));
                           (lit "accessToken", Str (accessToken config));
                           (lit "query", Str sql)])).

(** [x || rest], where [rest] is evaluated only when [x] is falsy. *)
Definition orElse (x : option Value) (rest : Completion Value)
  : Completion Value :=
  match x with
  | Some v => if ToBoolean x then Normal v else rest
  | None => rest
  end.

(** [data.detail || data.message || `Error ${response.status}`] *)
Definition failureMessage (data : Value) (status : N) : Completion Value :=
  detail <- Get data (lit "detail") ;;
  orElse detail
    (message <- Get data (lit "message") ;;
     orElse message (Normal (Str (lit "Error " ++ ofN status)))).

(** The requests issued, and the completion of the call. *)
Definition executeSql (config : SupabaseConfig) (sql : jsstring)
  : list Request * Completion ExecutionResult :=
  if negb (nonEmpty (projectRef config))
     || negb (nonEmpty (accessToken config))
  then
    ([], Normal (Result false
                   (Str (lit "Supabase Project Ref or Access Token is missing."))
                   None))
  else
    let request := executeRequest config sql in
    ([request],
     tryCatch
       (response <- fetch request ;;
        data <- responseJson response ;;
        if negb (ok response) then
          message <- failureMessage data (status response) ;;
          Normal (Result false message (Some data))
        else Normal (ResponseBody data))
       (fun error =>
          Normal (Result false
                    (Str (if nonEmpty (JS.message error) then JS.message error
                          else lit "An unexpected error occurred while communicating with the backend."))
                    None))).

End ExecuteSql.

End BackendService.

(* ================================================================== *)
(** * [App.tsx]: the body of the loop of [handleSendMessage] *)
(* ================================================================== *)

Module App.
Import JS.
Local Open Scope js_scope.

(** ** [types.ts] *)

Inductive Role : Type := user | model.

Record Message : Type := mkMessage { role : Role; text : jsstring }.

Record Chat : Type := mkChat {
  id : jsstring;
  user_id : jsstring;
  title : option jsstring;
  created_at : jsstring;
  updated_at : jsstring;
  latest_sql : option jsstring;
  context_used_chars : option (option Number);
  context_cap_chars : option (option Number);
  context_usage_pct : option (option Number);
      (* a counter is a number, absent ([None]) or, in the JSON of the back
         end, [null] ([Some None]) *)
  context_updated_at : option jsstring
}.

Record ToolStatus : Type := mkToolStatus {
  name : jsstring;
  status : jsstring;
  timestamp : Z
}.

Record ContextUsage : Type := mkContextUsage {
  chatId : jsstring;
  usedChars : option Number;
  capChars : option Number;
  usagePct : option Number
}.

(** The payload as the interface [SSEEvent] of [backendService.ts] declares
    it: every field optional, [None] for an absent one. *)
Record EventData : Type := mkEventData {
  textDelta : option jsstring;
  fullText : option jsstring;
  sql : option jsstring;
  finalText : option jsstring;
  finalSql : option jsstring;
  message : option jsstring;
  toolName : option jsstring;            (* [name] *)
  toolStatus : option jsstring;          (* [status] *)
  eventChatId : option jsstring;         (* [chatId] *)
  eventUsedChars : option Number;        (* [usedChars] *)
  eventCapChars : option Number;         (* [capChars] *)
  eventUsagePct : option Number;         (* [usagePct] *)
  newChatId : option jsstring
}.

Record SSEEvent : Type := mkSSEEvent { event : jsstring; data : EventData }.

(** ** The state the loop updates *)

(** A callback passed to [setTimeout]: when it is due, and the timestamp
    whose entries it filters out. *)
Record Timer : Type := mkTimer { due : Z; expired : Z }.

Record State : Type := mkState {
  messages : list Message;
  currentSql : jsstring;                 (* [sql] *)
  currentChatId : option jsstring;
  chats : list Chat;
  activeTools : list ToolStatus;
  contextUsage : option ContextUsage;
  lastFullText : jsstring;
  timers : list Timer
}.

(** ToBoolean of an optional string field. *)
Definition truthy (x : option jsstring) : bool :=
  match x with
  | Some s => nonEmpty s
  | None => false
  end.

(** [x !== undefined] for a field. *)
Definition definedField {A : Type} (x : option A) : bool :=
  match x with
  | Some _ => true
  | None => false
  end.

(** [newMessages[newMessages.length - 1].text = t] on a copy of the
    transcript; on an empty transcript the element is [undefined] and the
    assignment throws. *)
Fixpoint setLastText (ms : list Message) (t : jsstring)
  : Completion (list Message) :=
  match ms with
  | [] => Throw TypeError
  | [m] => Normal [mkMessage (role m) t]
  | m :: rest => ms' <- setLastText rest t ;; Normal (m :: ms')
  end.

Definition setMessages (st : State) (ms : list Message) : State :=
  mkState ms (currentSql st) (currentChatId st) (chats st) (activeTools st)
          (contextUsage st) (lastFullText st) (timers st).

Definition setSql (st : State) (q : jsstring) : State :=
  mkState (messages st) q (currentChatId st) (chats st) (activeTools st)
          (contextUsage st) (lastFullText st) (timers st).

Definition setCurrentChatId (st : State) (c : option jsstring) : State :=
  mkState (messages st) (currentSql st) c (chats st) (activeTools st)
          (contextUsage st) (lastFullText st) (timers st).

Definition setChats (st : State) (cs : list Chat) : State :=
  mkState (messages st) (currentSql st) (currentChatId st) cs (activeTools st)
          (contextUsage st) (lastFullText st) (timers st).

Definition setActiveTools (st : State) (ts : list ToolStatus) : State :=
  mkState (messages st) (currentSql st) (currentChatId st) (chats st) ts
          (contextUsage st) (lastFullText st) (timers st).

Definition setContextUsage (st : State) (u : option ContextUsage) : State :=
  mkState (messages st) (currentSql st) (currentChatId st) (chats st)
          (activeTools st) u (lastFullText st) (timers st).

Definition setLastFullText (st : State) (t : jsstring) : State :=
  mkState (messages st) (currentSql st) (currentChatId st) (chats st)
          (activeTools st) (contextUsage st) t (timers st).

(** [setTimeout(callback, delay)] called at time [now]. *)
Definition setTimeout (st : State) (now delay : Z) (key : Z) : State :=
  mkState (messages st) (currentSql st) (currentChatId st) (chats st)
          (activeTools st) (contextUsage st) (lastFullText st)
          (timers st ++ [mkTimer (now + delay) key]).

Definition genericError : jsstring :=
  lit "Error in architecture pipeline. Re-attempt advised.".

Definition rolloverNotice : jsstring :=
  [9888; 65039]%N ++ lit " Context limit reached. Continuing in a new chat session.".

Section HandleSendMessage.

(** [listChats()] of the back end, and [format] of the sql-formatter
    package. *)
Variable listChats : Completion (list Chat).
Variable format : jsstring -> Completion jsstring.

Definition formatSqlSafely (rawSql : jsstring) : jsstring :=
  match format rawSql with
  | Normal formatted => formatted
  | Throw _ => rawSql
  end.

Definition refreshChatList (st : State) : State :=
  match listChats with
  | Normal updatedChats => setChats st updatedChats
  | Throw _ => st
  end.

(** The updater passed to [setActiveTools] for a tool event received at
    [now], with the timer it starts. *)
Definition updateTools (now : Z) (n s : jsstring) (st : State) : State :=
  let toolStatus := mkToolStatus n s now in
  let filtered :=
    filter (fun t => negb (eqb (name t) n)) (activeTools st) in
  if eqb s (lit "start") then setActiveTools st (filtered ++ [toolStatus])
  else
    setActiveTools (setTimeout st now 2000 (timestamp toolStatus))
                   (filtered ++ [toolStatus]).

(** The body of [for await (const event of stream)], with [now] for
    [Date.now()]. *)
Definition onEvent (now : Z) (st : State) (ev : SSEEvent)
  : Completion State :=
  let d := data ev in
  if eqb (event ev) (lit "tool") && truthy (toolName d)
     && truthy (toolStatus d) then
    match toolName d, toolStatus d with
    | Some n, Some s => Normal (updateTools now n s st)
    | _, _ => Normal st
    end
  else if eqb (event ev) (lit "context") && truthy (eventChatId d) then
    match eventChatId d with
    | Some c =>
        Normal (setContextUsage st
                  (Some (mkContextUsage c (eventUsedChars d)
                                        (eventCapChars d) (eventUsagePct d))))
    | None => Normal st
    end
  else if eqb (event ev) (lit "chat_rollover") && truthy (newChatId d) then
    let st1 := setSql (setCurrentChatId st (newChatId d)) [] in
    let st2 :=
      match newChatId d with
      | Some c =>
          setContextUsage st1
            (Some (mkContextUsage c (Some (mkNumber 0 0))
                                  (Some (mkNumber 40000 0))
                                  (Some (mkNumber 0 0))))
      | None => st1
      end in
    let st3 := refreshChatList st2 in
    Normal (setMessages st3 (messages st3 ++ [mkMessage model rolloverNotice]))
  else if eqb (event ev) (lit "delta") && definedField (fullText d) then
    match fullText d with
    | Some t =>
        let cleanedText := trim t in
        if nonEmpty cleanedText || nonEmpty (lastFullText st) then
          ms <- setLastText (messages st) cleanedText ;;
          Normal (setMessages (setLastFullText st cleanedText) ms)
        else Normal st
    | None => Normal st
    end
  else if eqb (event ev) (lit "sql") && truthy (sql d) then
    match sql d with
    | Some q => Normal (setSql st q)
    | None => Normal st
    end
  else if eqb (event ev) (lit "done") then
    st1 <- match finalText d with
           | Some t =>
               if nonEmpty t && nonEmpty (trim t) then
                 ms <- setLastText (messages st) (trim t) ;;
                 Normal (setMessages st ms)
               else Normal st
           | None => Normal st
           end ;;
    match finalSql d with
    | Some q => if nonEmpty q then Normal (setSql st1 (formatSqlSafely q))
                else Normal st1
    | None => Normal st1
    end
  else if eqb (event ev) (lit "error") then
    Normal (setMessages st
              (messages st ++
               [mkMessage model
                  (match message d with
                   | Some m => if nonEmpty m then m else genericError
                   | None => genericError
                   end)]))
  else Normal st.

End HandleSendMessage.

(** A timer's callback: the updater
    [current => current.filter(t => t.timestamp !== toolStatus.timestamp)]. *)
Definition fire (st : State) (tm : Timer) : State :=
  setActiveTools st
    (filter (fun t => negb (Z.eqb (timestamp t) (expired tm)))
            (activeTools st)).

(** The state once the clock shows [now]: the callbacks due by then have
    run, in the order they were scheduled. *)
Definition elapse (now : Z) (st : State) : State :=
  let (dueNow, later) := partition (fun tm => Z.leb (due tm) now) (timers st) in
  fold_left fire dueNow
    (mkState (messages st) (currentSql st) (currentChatId st) (chats st)
             (activeTools st) (contextUsage st) (lastFullText st) later).

(** Events arriving one after the other, each with the time at which it is
    handled; the callbacks due by then run first. *)
Fixpoint play (listChats : Completion (list Chat))
  (format : jsstring -> Completion jsstring)
  (arrivals : list (Z * SSEEvent)) (st : State) : Completion State :=
  match arrivals with
  | [] => Normal st
  | (now, ev) :: rest =>
      st' <- onEvent listChats format now (elapse now st) ev ;;
      play listChats format rest st'
  end.

End App.

Import JS BackendService.

Unset Implicit Arguments.

(* ================================================================== *)
(** * Notions used in the statements *)
(* ================================================================== *)

(** Lines written out with their terminators. *)
Definition terminated (lines : list jsstring) : jsstring :=
  concat (map (fun l => l ++ [LF]) lines).

(** Field [k] of a payload other than [null]; [None] when it is absent. *)
Definition field (data : Value) (k : String.string) : option Value :=
  match data with
  | Object props => lookup props (lit k)
  | _ => None
  end.

(** The field is there, whatever its value. *)
Definition present (data : Value) (k : String.string) : bool :=
  defined (field data k).

(** The field is there and its value is not [null], [false], zero or the
    empty string. *)
Definition truthy (data : Value) (k : String.string) : bool :=
  ToBoolean (field data k).

(** The tag of the first rule of a table whose condition holds. *)
Fixpoint firstMatch (rules : list (bool * String.string))
  (otherwise : String.string) : jsstring :=
  match rules with
  | [] => lit otherwise
  | (true, tag) :: _ => lit tag
  | (false, _) :: rest => firstMatch rest otherwise
  end.

(** The precedence of the specification, word for word: every condition is
    the presence of fields. *)
Definition statedTag (data : Value) : jsstring :=
  firstMatch
    [(present data "finalText", "done");
     (present data "message" && negb (present data "textDelta"), "error");
     (present data "sql" && negb (present data "textDelta"), "sql");
     (present data "name" && present data "status", "tool");
     (present data "usedChars", "context");
     (present data "newChatId", "chat_rollover")]
    "delta".

(** The same table with the conditions on [message], [textDelta] (in the
    rule for [error]), [name], [status] and [newChatId] read as truthiness. *)
Definition truthyTag (data : Value) : jsstring :=
  firstMatch
    [(present data "finalText", "done");
     (truthy data "message" && negb (truthy data "textDelta"), "error");
     (present data "sql" && negb (present data "textDelta"), "sql");
     (truthy data "name" && truthy data "status", "tool");
     (present data "usedChars", "context");
     (truthy data "newChatId", "chat_rollover")]
    "delta".

(** A line the parser neither records nor parses. *)
Definition ignored (line : jsstring) : Prop :=
  startsWith line (lit "event: ") = false /\
  startsWith line (lit "data: ") = false.

(** A line that is not an [event: ] line. *)
Definition notLabel (line : jsstring) : Prop :=
  startsWith line (lit "event: ") = false.

(** A line that is not a [data: ] line. *)
Definition notData (line : jsstring) : Prop :=
  startsWith line (lit "data: ") = false.

(** Delivery of a list of events to a loop body, up to the first one at
    which the body leaves the loop. *)
Fixpoint deliver {C : Type} (loopBody : C -> SSEEvent -> Control C)
  (evs : list SSEEvent) (c : C) : Control C :=
  match evs with
  | [] => Continue c
  | ev :: rest =>
      match loopBody c ev with
      | Continue c' => deliver loopBody rest c'
      | stop => stop
      end
  end.

(** ** Streams used as examples *)

(** [event: done] and [data: {"finalSql":"SELECT 1;"}], each with its line
    feed. *)
Definition labelChunk : list Byte.byte := bytes (lit "event: done" ++ [LF]).

Definition dataChunk : list Byte.byte :=
  bytes (json "data: {'finalSql':'SELECT 1;'}" ++ [LF]).

Definition finalSql1 : Value :=
  Object [(lit "finalSql", Str (lit "SELECT 1;"))].

(** The two examples of the specification. *)
Definition example1 : list Byte.byte :=
  bytes (lit "event: sql" ++ [LF] ++ json "data: {'sql':'SELECT 1;'}"
         ++ [LF; LF]).

Definition example2 : list Byte.byte :=
  bytes (json "data: {'finalText':'done','finalSql':'SELECT 2;'}"
         ++ [LF; LF]).

(** [data: {"message":""}] *)
Definition emptyMessageLine : jsstring := json "data: {'message':''}".

Definition emptyMessage : Value := Object [(lit "message", Str [])].

(** A frame cut short, and a well-formed one. *)
Definition truncatedLine : jsstring := json "data: {'sql':'SELECT".

Definition selectLine : jsstring := json "data: {'sql':'SELECT 1;'}".

Definition boom : Error := mkError (lit "Error") (lit "boom").

Definition select1 : Value := Object [(lit "sql", Str (lit "SELECT 1;"))].

Definition releaseError : Error :=
  mkError (lit "TypeError") (lit "Cannot release a reader with pending reads").

(** ** Session states and events used as examples *)

(** A [tool] event. *)
Definition toolEvent (n s : String.string) : App.SSEEvent :=
  App.mkSSEEvent (lit "tool")
    (App.mkEventData None None None None None None (Some (lit n))
                     (Some (lit s)) None None None None None).

(** A [delta] event with [fullText]. *)
Definition deltaEvent (t : jsstring) : App.SSEEvent :=
  App.mkSSEEvent (lit "delta")
    (App.mkEventData None (Some t) None None None None None None None None
                     None None None).

(** The session when the stream is opened: the last message of the
    transcript is the reply in progress, still empty. *)
Definition opened : App.State :=
  App.mkState [App.mkMessage App.user (lit "a users table");
               App.mkMessage App.model []]
              [] (Some (lit "chat-1")) [] [] None [] [].

Definition noChats : Completion (list App.Chat) := Normal [].

Definition noFormat (q : jsstring) : Completion jsstring := Normal q.

(** The value has the shape the interface [ExecutionResult] declares: a
    boolean [success] and a string [message]. *)
Definition isExecutionResult (result : ExecutionResult) : bool :=
  match result with
  | Result _ (Str _) _ => true
  | Result _ _ _ => false
  | ResponseBody data =>
      match field data "success", field data "message" with
      | Some (Boolean _), Some (Str _) => true
      | _, _ => false
      end
  end.

(** The tag of the event a [data: ] line yields: the pending label when one
    is set, the inferred tag otherwise. *)
Definition tagOf (currentEvent : option jsstring) (data : Value) : jsstring :=
  match currentEvent with
  | Some label => if nonEmpty label then label else truthyTag data
  | None => truthyTag data
  end.

(** No two entries of the tool list have the same name. *)
Definition oneEntryPerName (st : App.State) : Prop :=
  NoDup (map App.name (App.activeTools st)).

(* ================================================================== *)
(** * The rest of [services/backendService.ts]: health and chat calls *)
(* ================================================================== *)

Module ChatService.

(** [s.includes(p)] *)
Fixpoint includes (s p : jsstring) : bool :=
  startsWith s p
  || match s with
     | [] => false
     | _ :: s' => includes s' p
     end.

(** What the chat calls read of a response besides [ok], [status] and
    [json()]: [statusText] and [text()]. *)
Record ChatResponse : Type := mkChatResponse {
  response : Response;
  statusText : jsstring;
  responseText : Completion jsstring
}.

Definition cannotConnect : Error :=
  mkError (lit "Error")
          (lit "Cannot connect to backend. Is the server running?").

(** [error.message.includes('Failed to fetch') ||
     error.message.includes('NetworkError')] *)
Definition isNetworkError (error : Error) : bool :=
  includes (JS.message error) (lit "Failed to fetch")
  || includes (JS.message error) (lit "NetworkError").

(** The [catch] block of [createChat] and [getChat]. *)
Definition rethrow {A : Type} (error : Error) : Completion A :=
  if isNetworkError error then Throw cannotConnect else Throw error.

Section Calls.

(** [Number::toString], the text of a number in a template literal. *)
Variable NumberToString : Number -> jsstring.

Variable fetch : Request -> Completion ChatResponse.
Variable VITE_BACKEND_URL : option jsstring.
Variable authToken : option jsstring.

(** ToString of a value of [JSON.parse], as a template literal applies
    it. *)
Fixpoint ToString (v : Value) : jsstring :=
  match v with
  | Null => lit "null"
  | Boolean b => if b then lit "true" else lit "false"
  | Num n => NumberToString n
  | Str s => s
  | Array xs =>
      (fix join (l : list Value) : jsstring :=
         match l with
         | [] => []
         | x :: rest =>
             match x with
             | Null => []
             | _ => ToString x
             end ++
             match rest with
             | [] => []
             | _ :: _ => 44%N :: join rest
             end
         end) xs
  | Object _ => lit "[object Object]"
  end.

(** [await response.json().catch(() => ({ detail: response.statusText }))] *)
Definition errorData (r : ChatResponse) : Value :=
  match responseJson (response r) with
  | Normal d => d
  | Throw _ => Object [(lit "detail", Str (statusText r))]
  end.

(** [errorData.detail || errorData.message || `HTTP ${response.status}`] *)
Definition errorMessage (r : ChatResponse) : Completion Value :=
  (detail <- Get (errorData r) (lit "detail") ;;
   orElse detail
     (message <- Get (errorData r) (lit "message") ;;
      orElse message
        (Normal (Str (lit "HTTP " ++ ofN (status (response r)))))))%js.

Definition healthRequest : Request :=
  mkRequest (BACKEND_URL VITE_BACKEND_URL ++ lit "/health") (lit "GET")
            (getHeaders authToken false) None.

(** [checkBackendHealth()] *)
Definition checkBackendHealth : Completion bool :=
  tryCatch (r <- fetch healthRequest ;; Normal (ok (response r)))%js
           (fun _ => Normal false).

Definition createChatRequest : Request :=
  mkRequest (BACKEND_URL VITE_BACKEND_URL ++ lit "/api/chats/new")
            (lit "POST") (getHeaders authToken true) None.

(** [createChat()]: the chat as the back end sent it. *)
Definition createChat : Completion Value :=
  tryCatch
    (r <- fetch createChatRequest ;;
     if negb (ok (response r)) then
       m <- errorMessage r ;;
       Throw (mkError (lit "Error")
                      (lit "Failed to create chat: " ++ ToString m))
     else responseJson (response r))%js
    rethrow.

Definition listChatsRequest : Request :=
  mkRequest (BACKEND_URL VITE_BACKEND_URL ++ lit "/api/chats") (lit "GET")
            (getHeaders authToken true) None.

(** [listChats()]: the property [chats] of the body, [None] for
    [undefined]. *)
Definition listChats : Completion (option Value) :=
  (r <- fetch listChatsRequest ;;
   if negb (ok (response r)) then
     errorText <- responseText r ;;
     Throw (mkError (lit "Error")
                    (lit "Failed to list chats: " ++ ofN (status (response r))
                     ++ lit " - " ++ errorText))
   else
     data <- responseJson (response r) ;;
     Get data (lit "chats"))%js.

Definition chatRequest (method chatId : jsstring) : Request :=
  mkRequest (BACKEND_URL VITE_BACKEND_URL ++ lit "/api/chats/" ++ chatId)
            method (getHeaders authToken true) None.

(** [getChat(chatId)] *)
Definition getChat (chatId : jsstring) : Completion Value :=
  tryCatch
    (r <- fetch (chatRequest (lit "GET") chatId) ;;
     if negb (ok (response r)) then
       m <- errorMessage r ;;
       if (status (response r) =? 401)%N then
         Throw (mkError (lit "Error")
                        (lit "Authentication failed: " ++ ToString m
                         ++ lit ". Please sign in again."))
       else
         Throw (mkError (lit "Error")
                        (lit "Failed to get chat: " ++ ToString m))
     else responseJson (response r))%js
    rethrow.

(** [deleteChat(chatId)] *)
Definition deleteChat (chatId : jsstring) : Completion unit :=
  (r <- fetch (chatRequest (lit "DELETE") chatId) ;;
   if negb (ok (response r)) then
     errorText <- responseText r ;;
     Throw (mkError (lit "Error")
                    (lit "Failed to delete chat: "
                     ++ ofN (status (response r)) ++ lit " - " ++ errorText))
   else Normal tt)%js.

End Calls.

End ChatService.

(* ================================================================== *)
(** * The rest of [App.tsx]: the handlers around the loop *)
(* ================================================================== *)

Module Handlers.

Definition warningSign : jsstring := [9888; 65039]%N.

Definition greeting : App.Message :=
  App.mkMessage App.model
    (lit "Define your data requirements. I will architect the schema and handle the deployment logic.").

Definition noChatWarning : App.Message :=
  App.mkMessage App.model
    (warningSign
     ++ lit " Please create a new chat before sending a message.").

(** The state of the component that the handlers touch besides the one the
    loop updates. *)
Record Session : Type := mkSession {
  app : App.State;
  input : jsstring;
  isTyping : bool;
  loadingChats : bool;
  executing : bool;
  executionResult : option ExecutionResult;   (* [null] or a result *)
  supabaseConfig : SupabaseConfig;
  clearTimers : list Z
    (* when each [setTimeout(() => setExecutionResult(null), 6000)] is due *)
}.

Definition withApp (s : Session) (st : App.State) : Session :=
  mkSession st (input s) (isTyping s) (loadingChats s) (executing s)
            (executionResult s) (supabaseConfig s) (clearTimers s).

Definition pushMessage (st : App.State) (m : App.Message) : App.State :=
  App.setMessages st (App.messages st ++ [m]).

(** [error?.message || fallback] *)
Definition messageOr (error : Error) (fallback : jsstring) : jsstring :=
  if nonEmpty (JS.message error) then JS.message error else fallback.

(** [x ?? d] *)
Definition nullish {A : Type} (x : option (option A)) (d : A) : A :=
  match x with
  | Some (Some v) => v
  | _ => d
  end.

(** [applyChatContextUsage(chat)] *)
Definition applyChatContextUsage (chat : option App.Chat) (st : App.State)
  : App.State :=
  match chat with
  | Some c =>
      if App.definedField (App.context_cap_chars c)
         && App.definedField (App.context_usage_pct c)
      then
        App.setContextUsage st
          (Some (App.mkContextUsage (App.id c)
                   (Some (nullish (App.context_used_chars c) (mkNumber 0 0)))
                   (Some (nullish (App.context_cap_chars c)
                                  (mkNumber 40000 0)))
                   (Some (nullish (App.context_usage_pct c) (mkNumber 0 0)))))
      else App.setContextUsage st None
  | None => App.setContextUsage st None
  end.

Section Handlers.

Variable listChats : Completion (list App.Chat).
Variable format : jsstring -> Completion jsstring.

(** The calls of [BackendService] as the handlers use them, with the chat
    they resolve to read through the interface [Chat]. *)
Variable getChat : jsstring -> Completion App.Chat.
Variable createChat : Completion App.Chat.
Variable deleteChatCall : jsstring -> Completion unit.

(** The loop of [handleSendMessage] over the events the stream delivers,
    each with the time at which it is handled: the state reached, and the
    exception that left the loop body, if any. *)
Fixpoint consume (arrivals : list (Z * App.SSEEvent)) (st : App.State)
  : App.State * option Error :=
  match arrivals with
  | [] => (st, None)
  | (now, ev) :: rest =>
      match App.onEvent listChats format now (App.elapse now st) ev with
      | Normal st' => consume rest st'
      | Throw e => (App.elapse now st, Some e)
      end
  end.

(** [handleSendMessage()], given the events the stream yields and how the
    stream ends once they are consumed. *)
Definition handleSendMessage (arrivals : list (Z * App.SSEEvent))
  (ending : Completion unit) (s : Session) : Session :=
  if negb (nonEmpty (trim (input s))) || isTyping s then s
  else
    match App.currentChatId (app s) with
    | Some (_ :: _) =>
        let userMessage := input s in
        let st1 := pushMessage (app s) (App.mkMessage App.user userMessage) in
        (* try *)
        let st2 := pushMessage st1 (App.mkMessage App.model []) in
        let (st3, thrown) := consume arrivals (App.setLastFullText st2 []) in
        let failed :=
          match thrown, ending with
          | Some _, _ => true
          | None, Throw _ => true
          | None, Normal _ => false
          end in
        (* catch *)
        let st4 :=
          if failed
          then pushMessage st3 (App.mkMessage App.model App.genericError)
          else st3 in
        (* finally *)
        mkSession st4 [] false (loadingChats s) (executing s)
                  (executionResult s) (supabaseConfig s) (clearTimers s)
    | _ => withApp s (pushMessage (app s) noChatWarning)
    end.

(** [loadChat(chatId)] *)
Definition loadChat (chatId : jsstring) (st : App.State) : App.State :=
  match getChat chatId with
  | Normal chat =>
      let st1 := App.setCurrentChatId st (Some (App.id chat)) in
      let st2 :=
        match App.latest_sql chat with
        | Some q =>
            if nonEmpty q && nonEmpty (trim q)
            then App.setSql st1 (App.formatSqlSafely format q)
            else App.setSql st1 []
        | None => App.setSql st1 []
        end in
      App.setMessages (applyChatContextUsage (Some chat) st2) [greeting]
  | Throw error =>
      pushMessage st
        (App.mkMessage App.model
           (warningSign ++ lit " Failed to load chat: "
            ++ messageOr error (lit "Unknown error")))
  end.



(** [deleteChat(chatId)] of the component. *)
Definition deleteChat (chatId : jsstring) (st : App.State) : App.State :=
  match deleteChatCall chatId with
  | Normal _ =>
      let remaining :=
        filter (fun chat => negb (JS.eqb (App.id chat) chatId))
               (App.chats st) in
      let st1 := App.setChats st remaining in
      match App.currentChatId st with
      | Some current =>
          if JS.eqb current chatId then
            match remaining with
            | first :: _ => loadChat (App.id first) st1
            | [] =>
                applyChatContextUsage None
                  (App.setMessages
                     (App.setSql (App.setCurrentChatId st1 None) [])
                     [greeting])
            end
          else st1
      | None => st1
      end
  | Throw error =>
      pushMessage st
        (App.mkMessage App.model
           (warningSign ++ lit " "
            ++ messageOr error
                 (lit "Failed to delete chat. Please try again.")))
  end.

(** [result.success] *)
Definition succeeded (result : ExecutionResult) : Completion bool :=
  match result with
  | Result success _ _ => Normal success
  | ResponseBody data =>
      (success <- Get data (lit "success") ;; Normal (ToBoolean success))%js
  end.

(** The state [setExecutionResult(result)] leaves: a body that is [null]
    is the state [null]. *)
Definition shown (result : ExecutionResult) : option ExecutionResult :=
  match result with
  | ResponseBody Null => None
  | _ => Some result
  end.

Definition criticalFailure : ExecutionResult :=
  Result false (Str (lit "Critical deployment failure.")) None.

Variable fetch : Request -> Completion Response.
Variable VITE_BACKEND_URL : option jsstring.
Variable authToken : option jsstring.

(** [handleExecute()] called at time [now]: the requests issued and the
    state it leaves. *)
Definition handleExecute (now : Z) (s : Session) : list Request * Session :=
  let sql := App.currentSql (app s) in
  if negb (nonEmpty (trim sql)) then ([], s)
  else
    let (requests, completion) :=
      executeSql fetch VITE_BACKEND_URL authToken (supabaseConfig s) sql in
    let (result, timers) :=
      match completion with
      | Normal result =>
          match succeeded result with
          | Normal true => (shown result, clearTimers s ++ [(now + 6000)%Z])
          | Normal false => (shown result, clearTimers s)
          | Throw _ => (Some criticalFailure, clearTimers s)
          end
      | Throw _ => (Some criticalFailure, clearTimers s)
      end in
    (requests,
     mkSession (app s) (input s) (isTyping s) (loadingChats s) false result
               (supabaseConfig s) timers).

End Handlers.

End Handlers.

(* ================================================================== *)
(** * Further notions used in the statements *)
(* ================================================================== *)

(** The chunks a reader delivers before its first rejected read. *)
Fixpoint chunksBefore (rs : list ReadResult) : list (list Byte.byte) :=
  match rs with
  | Chunk value :: rest => value :: chunksBefore rest
  | _ => []
  end.

(** [currentEvent] after the loop over some lines. *)
Definition pendingAfter (currentEvent : option jsstring)
  (lines : list jsstring) : option jsstring :=
  fold_left (fun cur line => fst (processLine cur line)) lines currentEvent.

(** The residual buffer after some reads. *)
Fixpoint residual (buffer : jsstring) (texts : list jsstring) : jsstring :=
  match texts with
  | [] => buffer
  | text :: rest => residual (snd (feed buffer text)) rest
  end.

(** A header named [Authorization] is among the headers. *)
Definition authorization (hs : list (jsstring * jsstring))
  : option jsstring :=
  match find (fun h => JS.eqb (fst h) (lit "Authorization")) hs with
  | Some h => Some (snd h)
  | None => None
  end.

(** The chat selected, if one is, is among the chats listed. *)
Definition currentListed (st : App.State) : Prop :=
  match App.currentChatId st with
  | Some current =>
      exists chat, In chat (App.chats st) /\ App.id chat = current
  | None => True
  end.

(** The error of the first rejected read, if a read is rejected. *)
Fixpoint firstRejection (rs : list ReadResult) : option Error :=
  match rs with
  | Chunk _ :: rest => firstRejection rest
  | ReadRejects e :: _ => Some e
  | [] => None
  end.

(** Two values of [currentEvent] the parser cannot tell apart: the same
    label, or no label on either side ([null] or the empty string). *)
Definition sameLabel (c1 c2 : option jsstring) : Prop :=
  c1 = c2 \/ (labelSet c1 = false /\ labelSet c2 = false).

(** ** Further examples *)

(** A frame whose label and payload arrive together, twice. *)
Definition labelledFrame : jsstring :=
  lit "event: done" ++ [LF] ++ json "data: {'finalSql':'SELECT 1;'}" ++ [LF]
  ++ [LF].

(** A payload written without the space after [data:]. *)
Definition unspacedLine : jsstring := json "data:{'sql':'SELECT 1;'}".

Definition bogusLabelLine : jsstring := lit "event:  bogus ".

Definition nullLine : jsstring := lit "data: null".

(** An [error] event with a message. *)
Definition errorEvent (m : String.string) : App.SSEEvent :=
  App.mkSSEEvent (lit "error")
    (App.mkEventData None None None None None (Some (lit m)) None None None
                     None None None None).

(** A [chat_rollover] event that names the new chat. *)
Definition rolloverEvent (c : String.string) : App.SSEEvent :=
  App.mkSSEEvent (lit "chat_rollover")
    (App.mkEventData None None None None None None None None None None None
                     None (Some (lit c))).

Definition failedToFetch : Error :=
  mkError (lit "TypeError") (lit "Failed to fetch").

(** A response of the chat endpoints. *)
Definition chatResponse (ok : bool) (status : N) (body : Completion Value)
  (text : String.string) : ChatService.ChatResponse :=
  ChatService.mkChatResponse (mkResponse ok status None body) []
                             (Normal (lit text)).

(** A rendering of numbers for the examples, none of which prints one. *)
Definition plainNumber (n : Number) : jsstring := lit "0".

Definition chatA : App.Chat :=
  App.mkChat (lit "a") (lit "u") None (lit "t0") (lit "t1") None None None
             None None.

Definition chatB : App.Chat :=
  App.mkChat (lit "b") (lit "u") None (lit "t0") (lit "t1") None None None
             None None.

(** A session with a question typed in and a chat selected. *)
Definition ready : Handlers.Session :=
  Handlers.mkSession
    (App.mkState [Handlers.greeting] (lit "SELECT 1;") (Some (lit "a"))
                 [chatA; chatB] [] None [] [])
    (lit "a users table") false false false None
    (mkSupabaseConfig (lit "ref") (lit "token")) [].

(* ================================================================== *)
(** * Strings and lines *)
(* ================================================================== *)

Section Strings.

Lemma eqb_refl (s : jsstring) : JS.eqb s s = true.
Proof.
  induction s as [|c s IH]; simpl; [reflexivity|].
  now rewrite N.eqb_refl, IH.
Qed.

Lemma eqb_eq (s t : jsstring) : JS.eqb s t = true <-> s = t.
Proof.
  split; [|intros ->; apply eqb_refl].
  revert t; induction s as [|c s IH]; intros [|d t]; simpl;
    try discriminate; [reflexivity|].
  intros H; apply andb_prop in H as [H1 H2].
  apply N.eqb_eq in H1; subst d. f_equal. now apply IH.
Qed.

(** A [data: ] line is not an [event: ] line. *)
Lemma data_not_event (line : jsstring) :
  startsWith line (lit "data: ") = true ->
  startsWith line (lit "event: ") = false.
Proof.
  destruct line as [|c l]; [discriminate|]. cbn.
  destruct (N.eqb_spec c 100); [subst c; reflexivity | discriminate].
Qed.

Lemma split_nonempty (s : jsstring) : split s <> [].
Proof.
  destruct s as [|c s]; simpl; [discriminate|].
  destruct (N.eqb c LF); [discriminate|].
  destruct (split s); discriminate.
Qed.

Lemma terminated_cons (l : jsstring) (ls : list jsstring) :
  terminated (l :: ls) = l ++ LF :: terminated ls.
Proof. unfold terminated. simpl. now rewrite <- app_assoc. Qed.

Lemma removelast_cons {A} (x : A) (l : list A) :
  l <> [] -> removelast (x :: l) = x :: removelast l.
Proof. destruct l; [congruence|reflexivity]. Qed.

Lemma last_cons {A} (x d : A) (l : list A) :
  l <> [] -> last (x :: l) d = last l d.
Proof. destruct l; [congruence|reflexivity]. Qed.

(** The two equations of [split]. *)
Lemma split_LF (s : jsstring) : split (LF :: s) = [] :: split s.
Proof. reflexivity. Qed.

Lemma split_other (c : N) (s : jsstring) :
  c <> LF ->
  split (c :: s) = (c :: hd [] (split s)) :: tl (split s).
Proof.
  intros Hc. simpl. rewrite (proj2 (N.eqb_neq c LF) Hc).
  pose proof (split_nonempty s). destruct (split s); [congruence|reflexivity].
Qed.

Lemma split_join (s : jsstring) :
  terminated (removelast (split s)) ++ last (split s) [] = s.
Proof.
  induction s as [|c s IH]; [reflexivity|].
  pose proof (split_nonempty s) as Hne.
  destruct (N.eqb_spec c LF) as [->|Hc].
  - rewrite split_LF, removelast_cons, last_cons by exact Hne.
    rewrite terminated_cons. simpl. now rewrite IH.
  - rewrite split_other by exact Hc.
    destruct (split s) as [|seg [|seg' segs]]; [congruence| |].
    + simpl in *. now rewrite IH.
    + simpl hd. simpl tl.
      rewrite removelast_cons, last_cons by discriminate.
      rewrite removelast_cons, last_cons in IH by discriminate.
      rewrite terminated_cons in *. rewrite <- IH. reflexivity.
Qed.

Lemma split_no_LF (s : jsstring) : Forall (fun seg => ~ In LF seg) (split s).
Proof.
  induction s as [|c s IH]; simpl.
  - constructor; [intros []|constructor].
  - destruct (N.eqb_spec c LF) as [->|Hc].
    + constructor; [intros []|exact IH].
    + destruct (split s) as [|seg segs].
      * constructor; [|constructor]. intros [H|[]]. now subst.
      * inversion IH as [|? ? Hseg Hsegs]; subst.
        constructor; [|exact Hsegs].
        intros [H|H]; [now subst|contradiction].
Qed.

(** Splitting a text that has no line feed. *)
Lemma split_line (l : jsstring) : ~ In LF l -> split l = [l].
Proof.
  induction l as [|c l IH]; intros H; [reflexivity|].
  simpl. destruct (N.eqb_spec c LF) as [->|Hc].
  - exfalso; apply H; now left.
  - rewrite IH; [reflexivity|]. intros Hin; apply H; now right.
Qed.

Lemma split_line_LF (l : jsstring) :
  ~ In LF l -> split (l ++ [LF]) = [l; []].
Proof.
  induction l as [|c l IH]; intros H; [reflexivity|].
  simpl app. rewrite split_other, IH; [reflexivity| |].
  - intros Hin; apply H; now right.
  - intros ->; apply H; now left.
Qed.

(** Splitting a text in two pieces: the last segment of the first piece is
    continued by the second. *)
Lemma split_app (a b : jsstring) :
  split (a ++ b) = removelast (split a) ++ split (last (split a) [] ++ b).
Proof.
  induction a as [|c a IH]; [reflexivity|].
  pose proof (split_nonempty a) as Hne.
  simpl app. destruct (N.eqb_spec c LF) as [->|Hc].
  - rewrite !split_LF, removelast_cons, last_cons by exact Hne.
    simpl. now rewrite IH.
  - rewrite !split_other by exact Hc. rewrite IH.
    destruct (split a) as [|seg [|seg' segs]]; [congruence| |].
    + cbn [removelast last app]. symmetry.
      exact (split_other c (seg ++ b) Hc).
    + simpl hd. simpl tl.
      rewrite !removelast_cons, !last_cons by discriminate.
      reflexivity.
Qed.

Lemma removelast_app_nonempty {A} (l l' : list A) :
  l' <> [] -> removelast (l ++ l') = l ++ removelast l'.
Proof. intros H. now apply removelast_app. Qed.

(** The lines parsed over a sequence of reads are the complete lines of the
    whole text, whatever the grouping into chunks; what is left in the
    buffer is its unterminated tail. *)
Lemma chunkLines_concat (texts : list jsstring) (buffer : jsstring) :
  ~ In LF buffer ->
  concat (chunkLines buffer texts)
  = removelast (split (buffer ++ concat texts)).
Proof.
  revert buffer; induction texts as [|t ts IH]; intros buffer Hb.
  - simpl. rewrite app_nil_r, split_line by exact Hb. reflexivity.
  - simpl chunkLines. unfold feed, pop.
    simpl concat. rewrite IH.
    + rewrite app_assoc, (split_app (buffer ++ t)).
      rewrite removelast_app_nonempty by apply split_nonempty.
      reflexivity.
    + pose proof (split_no_LF (buffer ++ t)) as HF.
      pose proof (split_nonempty (buffer ++ t)) as Hne.
      destruct (exists_last Hne) as (l & x & E). rewrite E.
      rewrite last_last. rewrite E in HF.
      apply Forall_app in HF as [_ HF]. now inversion HF.
Qed.

Lemma chunkLines_whole (texts : list jsstring) :
  concat (chunkLines [] texts) = removelast (split (concat texts)).
Proof. apply (chunkLines_concat texts []). intros []. Qed.

End Strings.

(* ================================================================== *)
(** * The frame parser, line by line *)
(* ================================================================== *)

Section Lines.

Lemma parse_empty : JSON.parse [] = None.
Proof. reflexivity. Qed.

Lemma Get_field (data : Value) (k : String.string) :
  data <> Null -> Get data (lit k) = Normal (field data k).
Proof. destruct data; intros H; try reflexivity. congruence. Qed.

(** On a payload other than [null] the inference is the table
    [truthyTag]. *)
Lemma inferEventType_truthyTag (data : Value) :
  data <> Null ->
  inferEventType (lit "delta") data = Normal (truthyTag data).
Proof.
  intros H. unfold inferEventType, truthyTag, present, truthy.
  rewrite !(fun k => Get_field data k H). cbn [bind firstMatch].
  destruct (defined (field data "finalText")); [reflexivity|].
  destruct (ToBoolean (field data "message")),
           (ToBoolean (field data "textDelta")); cbn [andAlso bind negb andb];
    try reflexivity;
    (destruct (defined (field data "sql")),
              (defined (field data "textDelta"));
       cbn [andAlso bind negb andb]; try reflexivity;
     (destruct (ToBoolean (field data "name")),
               (ToBoolean (field data "status"));
        cbn [andAlso bind negb andb]; try reflexivity;
      (destruct (defined (field data "usedChars")); [reflexivity|];
       destruct (ToBoolean (field data "newChatId")); reflexivity))).
Qed.

Lemma processLine_event (cur : option jsstring) (line : jsstring) :
  startsWith line (lit "event: ") = true ->
  processLine cur line = (Some (trim (substring line 7)), None).
Proof. intros H. unfold processLine. now rewrite H. Qed.

Lemma processLine_ignored (cur : option jsstring) (line : jsstring) :
  ignored line -> processLine cur line = (cur, None).
Proof. intros [H1 H2]. unfold processLine. now rewrite H1, H2. Qed.

Lemma processLine_notData (cur : option jsstring) (line : jsstring) :
  notData line -> snd (processLine cur line) = None.
Proof.
  intros H. unfold processLine. rewrite H.
  destruct (startsWith line (lit "event: ")); reflexivity.
Qed.

Lemma processLine_malformed (cur : option jsstring) (line : jsstring) :
  startsWith line (lit "data: ") = true ->
  JSON.parse (trim (substring line 6)) = None ->
  processLine cur line = (cur, None).
Proof.
  intros H1 H2. unfold processLine.
  rewrite (data_not_event _ H1), H1, H2.
  destruct (negb (nonEmpty (trim (substring line 6)))); reflexivity.
Qed.

Lemma processLine_inferred (cur : option jsstring) (line : jsstring)
  (data : Value) :
  labelSet cur = false ->
  startsWith line (lit "data: ") = true ->
  JSON.parse (trim (substring line 6)) = Some data ->
  data <> Null ->
  processLine cur line = (None, Some (mkSSEEvent (truthyTag data) data)).
Proof.
  intros Hl H1 H2 Hn. unfold processLine.
  rewrite (data_not_event _ H1), H1.
  destruct (trim (substring line 6)) as [|c t] eqn:E.
  - rewrite parse_empty in H2. discriminate.
  - cbn [nonEmpty negb]. rewrite H2, Hl. cbn [negb].
    replace (match cur with
             | Some label => if nonEmpty label then label else lit "delta"
             | None => lit "delta"
             end) with (lit "delta").
    + now rewrite inferEventType_truthyTag.
    + destruct cur as [l|]; [|reflexivity].
      simpl in Hl. now rewrite Hl.
Qed.

(** Without a label a [null] payload yields nothing: reading its first
    field throws, and the [catch] drops the frame. *)
Lemma processLine_null (cur : option jsstring) (line : jsstring) :
  labelSet cur = false ->
  startsWith line (lit "data: ") = true ->
  JSON.parse (trim (substring line 6)) = Some Null ->
  processLine cur line = (cur, None).
Proof.
  intros Hl H1 H2. unfold processLine.
  rewrite (data_not_event _ H1), H1, H2, Hl.
  destruct (negb (nonEmpty (trim (substring line 6)))); reflexivity.
Qed.

Lemma processLine_labelled (label : jsstring) (line : jsstring)
  (data : Value) :
  nonEmpty label = true ->
  startsWith line (lit "data: ") = true ->
  JSON.parse (trim (substring line 6)) = Some data ->
  processLine (Some label) line = (None, Some (mkSSEEvent label data)).
Proof.
  intros Hl H1 H2. unfold processLine.
  rewrite (data_not_event _ H1), H1.
  destruct (trim (substring line 6)) as [|c t] eqn:E.
  - rewrite parse_empty in H2. discriminate.
  - cbn [nonEmpty negb]. rewrite H2. cbn [labelSet]. rewrite Hl. reflexivity.
Qed.

(** Whenever a line yields an event, [currentEvent] is [null] afterwards. *)
Lemma processLine_yield_clears (cur cur' : option jsstring)
  (line : jsstring) (ev : SSEEvent) :
  processLine cur line = (cur', Some ev) -> cur' = None.
Proof.
  unfold processLine.
  destruct (startsWith line (lit "event: ")); [discriminate|].
  destruct (startsWith line (lit "data: ")); [|discriminate].
  destruct (negb (nonEmpty (trim (substring line 6)))); [discriminate|].
  destruct (JSON.parse (trim (substring line 6))); [|discriminate].
  destruct (if negb (labelSet cur) then _ else _); [|discriminate].
  now intros [= <- _].
Qed.

Variable C : Type.
Variable loopBody : C -> SSEEvent -> Control C.

Lemma forLines_cons (cur : option jsstring) (line : jsstring)
  (lines : list jsstring) (c : C) :
  forLines loopBody cur (line :: lines) c
  = match processLine cur line with
    | (cur', None) => forLines loopBody cur' lines c
    | (cur', Some ev) =>
        match loopBody c ev with
        | Continue c' => forLines loopBody cur' lines c'
        | stop => stop
        end
    end.
Proof. reflexivity. Qed.

(** Lines that are not [data: ] lines yield nothing. *)
Lemma forLines_notData (lines : list jsstring) (cur : option jsstring)
  (c : C) :
  Forall notData lines -> forLines loopBody cur lines c = Continue c.
Proof.
  intros H; revert cur; induction H as [|l ls Hl _ IH]; intros cur.
  - reflexivity.
  - rewrite forLines_cons. pose proof (processLine_notData cur l Hl) as E.
    destruct (processLine cur l) as [cur' [ev|]]; [discriminate|]. apply IH.
Qed.

End Lines.

Lemma forLines_keep (lines : list jsstring) (cur : option jsstring)
  (acc : list SSEEvent) :
  forLines keep cur lines acc = Continue (acc ++ lineEvents cur lines).
Proof.
  unfold lineEvents. revert cur acc.
  induction lines as [|l ls IH]; intros cur acc.
  - simpl. now rewrite app_nil_r.
  - rewrite !forLines_cons.
    destruct (processLine cur l) as [cur' [ev|]].
    + unfold keep at 1 3. rewrite IH, (IH cur' ([] ++ [ev])).
      simpl. now rewrite <- app_assoc.
    + apply IH.
Qed.

Lemma lineEvents_cons (cur : option jsstring) (line : jsstring)
  (lines : list jsstring) :
  lineEvents cur (line :: lines)
  = match processLine cur line with
    | (cur', None) => lineEvents cur' lines
    | (cur', Some ev) => ev :: lineEvents cur' lines
    end.
Proof.
  unfold lineEvents at 1. rewrite forLines_cons.
  destruct (processLine cur line) as [cur' [ev|]]; [|reflexivity].
  unfold keep at 1. now rewrite forLines_keep.
Qed.

(** What a loop receives is the list [lineEvents], delivered in order. *)
Lemma forLines_deliver {C : Type} (loopBody : C -> SSEEvent -> Control C)
  (lines : list jsstring) (cur : option jsstring) (c : C) :
  forLines loopBody cur lines c = deliver loopBody (lineEvents cur lines) c.
Proof.
  revert cur c; induction lines as [|l ls IH]; intros cur c; [reflexivity|].
  rewrite forLines_cons, lineEvents_cons.
  destruct (processLine cur l) as [cur' [ev|]]; [|apply IH].
  simpl. destruct (loopBody c ev); try reflexivity. apply IH.
Qed.

(* ================================================================== *)
(** * The stream as a whole *)
(* ================================================================== *)

Section Stream.

Lemma whileRead_keep (chunks : list (list Byte.byte))
  (decoder : TextDecoder.State) (buffer : jsstring) (acc : list SSEEvent) :
  whileRead keep (map Chunk chunks) decoder buffer acc
  = Done (acc ++ flat_map (lineEvents None)
                          (chunkLines buffer (decodeAll decoder chunks))).
Proof.
  revert decoder buffer acc.
  induction chunks as [|v vs IH]; intros decoder buffer acc.
  - simpl. now rewrite app_nil_r.
  - simpl. destruct (TextDecoder.decode decoder v) as [decoder' text].
    simpl. destruct (feed buffer text) as [lines buffer'].
    rewrite forLines_keep, IH. simpl. now rewrite app_assoc.
Qed.

(** The events of a stream are those of the lines parsed after each read,
    each read starting without a pending label. *)
Lemma streamEvents_lines (chunks : list (list Byte.byte)) :
  streamEvents chunks
  = flat_map (lineEvents None)
             (chunkLines [] (decodeAll TextDecoder.initial chunks)).
Proof.
  unfold streamEvents, tryFinally. cbn [reads releaseLock].
  now rewrite whileRead_keep.
Qed.

(** Decoding is insensitive to the grouping of the bytes. *)
Lemma decode_app (st : TextDecoder.State) (a b : list Byte.byte) :
  TextDecoder.decode st (a ++ b)
  = let (st1, t1) := TextDecoder.decode st a in
    let (st2, t2) := TextDecoder.decode st1 b in
    (st2, t1 ++ t2).
Proof.
  revert st; induction a as [|x a IH]; intros st; simpl.
  - now destruct (TextDecoder.decode st b).
  - destruct (TextDecoder.step st x) as [st1 t1]. rewrite IH.
    destruct (TextDecoder.decode st1 a) as [st2 t2].
    destruct (TextDecoder.decode st2 b) as [st3 t3].
    now rewrite app_assoc.
Qed.

Lemma decodeAll_concat (chunks : list (list Byte.byte))
  (st : TextDecoder.State) :
  concat (decodeAll st chunks) = snd (TextDecoder.decode st (concat chunks)).
Proof.
  revert st; induction chunks as [|v vs IH]; intros st; [reflexivity|].
  simpl. rewrite decode_app.
  destruct (TextDecoder.decode st v) as [st1 t1]. simpl. rewrite IH.
  now destruct (TextDecoder.decode st1 (concat vs)).
Qed.

Lemma processLine_notLabel (line : jsstring) :
  notLabel line -> fst (processLine None line) = None.
Proof.
  intros H. unfold processLine. rewrite H.
  destruct (startsWith line (lit "data: ")); [|reflexivity].
  destruct (negb (nonEmpty (trim (substring line 6)))); [reflexivity|].
  destruct (JSON.parse (trim (substring line 6))); [|reflexivity].
  cbn [labelSet negb].
  now destruct (inferEventType (lit "delta") v).
Qed.

Lemma lineEvents_app_unlabelled (l1 l2 : list jsstring) :
  Forall notLabel l1 ->
  lineEvents None (l1 ++ l2) = lineEvents None l1 ++ lineEvents None l2.
Proof.
  induction 1 as [|l ls Hl _ IH]; [reflexivity|].
  simpl app. rewrite !lineEvents_cons.
  pose proof (processLine_notLabel l Hl) as E.
  destruct (processLine None l) as [cur' [ev|]]; simpl in E; subst cur';
    now rewrite IH.
Qed.

Lemma flat_map_unlabelled (groups : list (list jsstring)) :
  Forall (Forall notLabel) groups ->
  flat_map (lineEvents None) groups = lineEvents None (concat groups).
Proof.
  induction 1 as [|g gs Hg _ IH]; [reflexivity|].
  simpl. now rewrite lineEvents_app_unlabelled, IH.
Qed.

(** A stream without [event: ] lines yields the same events however its
    bytes are cut into chunks. *)
Lemma unlabelled_stream_chunking (chunks : list (list Byte.byte)) :
  Forall notLabel
    (removelast
       (split (snd (TextDecoder.decode TextDecoder.initial (concat chunks)))))
  -> streamEvents chunks = streamEvents [concat chunks].
Proof.
  intros H. rewrite !streamEvents_lines.
  rewrite <- decodeAll_concat in H.
  rewrite <- chunkLines_whole in H.
  rewrite flat_map_unlabelled by (now apply Forall_concat).
  rewrite chunkLines_whole, decodeAll_concat. cbn [decodeAll].
  destruct (TextDecoder.decode TextDecoder.initial (concat chunks))
    as [st text].
  cbn [snd chunkLines flat_map]. unfold feed, pop. simpl app.
  cbn [flat_map]. now rewrite app_nil_r.
Qed.

End Stream.

Ltac no_LF :=
  let H := fresh in
  cbv; intros H; repeat (destruct H as [H|H]; [discriminate H|]); exact H.

(* ================================================================== *)
(** * Properties of the streaming parser *)
(* ================================================================== *)

(** The two examples of the specification, and a consumer that leaves the
    loop at the first event. *)
Example example1_events :
  streamEvents [example1] = [mkSSEEvent (lit "sql") select1].
Proof. vm_compute. reflexivity. Qed.

Example example2_events :
  streamEvents [example2]
  = [mkSSEEvent (lit "done")
       (Object [(lit "finalText", Str (lit "done"));
                (lit "finalSql", Str (lit "SELECT 2;"))])].
Proof. vm_compute. reflexivity. Qed.

Example break_releases :
  let o := tryFinally (breakAt 1)
             (mkReader [Chunk (example1 ++ example2)] None) [] in
  consumer o = [mkSSEEvent (lit "sql") select1]
  /\ loop o = Normal tt /\ lock o = Released.
Proof. repeat split; vm_compute; reflexivity. Qed.

Example throw_releases :
  let o := tryFinally (throwAt 2 boom)
             (mkReader [Chunk example1; Chunk example2; ReadRejects boom]
                       None) [] in
  List.length (consumer o) = 2%nat
  /\ generator o = Normal tt /\ loop o = Throw boom /\ lock o = Released.
Proof. repeat split; vm_compute; reflexivity. Qed.

(** When [fetch] itself rejects, the call fails in the same way. *)
Lemma fetch_rejected (C : Type) (loopBody : C -> SSEEvent -> Control C)
  (fetch : Request -> Completion Response)
  (VITE_BACKEND_URL authToken : option jsstring)
  (message chatId : jsstring) (c : C) (e : Error) :
  fetch (streamRequest VITE_BACKEND_URL authToken message chatId) = Throw e ->
  streamAgentResponse loopBody fetch VITE_BACKEND_URL authToken message
    chatId c
  = mkOutcome c (Throw e) (Throw e) NotAcquired.
Proof. intros H. unfold streamAgentResponse. now rewrite H. Qed.

(** C1.  The label of an [event: ] line does not survive the end of the
    chunk it arrives in: [currentEvent] is declared inside the [while]
    loop.  The same bytes yield the tag [done] when read as one chunk and
    the inferred tag [delta] when the chunk ends after the label line. *)
Theorem C1_label_lost_between_chunks :
  streamEvents [labelChunk ++ dataChunk]
  = [mkSSEEvent (lit "done") finalSql1]
  /\ streamEvents [labelChunk; dataChunk]
     = [mkSSEEvent (lit "delta") finalSql1].
Proof. split; vm_compute; reflexivity. Qed.

(** C2, as stated, fails on [data: {"message":""}]: the field [message] is
    present and [textDelta] is absent, yet the tag is [delta]. *)
Lemma C2_empty_message_is_delta :
  startsWith emptyMessageLine (lit "data: ") = true
  /\ JSON.parse (trim (substring emptyMessageLine 6)) = Some emptyMessage
  /\ statedTag emptyMessage = lit "error"
  /\ processLine None emptyMessageLine
     = (None, Some (mkSSEEvent (lit "delta") emptyMessage)).
Proof. repeat split; vm_compute; reflexivity. Qed.

(** C2, amended.  For a [data: ] line whose payload deserializes to a value
    other than [null], with no pending label, the event carries that payload
    and the tag of the first rule that applies: [finalText] present gives
    [done]; else [message] truthy and [textDelta] not truthy gives [error];
    else [sql] present and [textDelta] absent gives [sql]; else [name] and
    [status] truthy gives [tool]; else [usedChars] present gives [context];
    else [newChatId] truthy gives [chat_rollover]; else [delta].  With
    [finalText] present the tag is [done], whatever [message] is. *)
Theorem C2_tag_precedence (currentEvent : option jsstring) (line : jsstring)
  (data : Value) :
  labelSet currentEvent = false ->
  startsWith line (lit "data: ") = true ->
  JSON.parse (trim (substring line 6)) = Some data ->
  data <> Null ->
  processLine currentEvent line
  = (None, Some (mkSSEEvent (truthyTag data) data))
  /\ (present data "finalText" = true -> truthyTag data = lit "done").
Proof.
  intros Hl H1 H2 Hn. split.
  - now apply processLine_inferred.
  - intros Hp. unfold truthyTag. now rewrite Hp.
Qed.

Lemma C2_tag_precedence_witness :
  let line := json "data: {'finalText':'ok','message':'boom'}" in
  let data := Object [(lit "finalText", Str (lit "ok"));
                      (lit "message", Str (lit "boom"))] in
  (labelSet None = false
   /\ startsWith line (lit "data: ") = true
   /\ JSON.parse (trim (substring line 6)) = Some data
   /\ data <> Null)
  /\ processLine None line = (None, Some (mkSSEEvent (lit "done") data)).
Proof.
  intros line data.
  assert (H1 : labelSet None = false) by reflexivity.
  assert (H2 : startsWith line (lit "data: ") = true) by reflexivity.
  assert (H3 : JSON.parse (trim (substring line 6)) = Some data)
    by (vm_compute; reflexivity).
  assert (H4 : data <> Null) by discriminate.
  split; [repeat split; assumption|].
  exact (proj1 (C2_tag_precedence None line data H1 H2 H3 H4)).
Defined.

(** C3.  A [data: ] line whose payload [JSON.parse] rejects yields no event
    and leaves the pending label as it was; whatever the loop body, the
    lines of the chunk are processed as if that line were not there, in this
    chunk and in the stream, so the line never ends the sequence; and the
    next well-formed [data: ] line after it is emitted, with the pending
    label or else the inferred tag, and with its payload. *)
Theorem C3_malformed_frame_skipped (C : Type)
  (loopBody : C -> SSEEvent -> Control C) (currentEvent : option jsstring)
  (before after : list jsstring) (line : jsstring) (c : C)
  (earlier later : list (list jsstring)) :
  startsWith line (lit "data: ") = true ->
  JSON.parse (trim (substring line 6)) = None ->
  (forall pending, processLine pending line = (pending, None))
  /\ forLines loopBody currentEvent (before ++ line :: after) c
     = forLines loopBody currentEvent (before ++ after) c
  /\ lineEvents currentEvent (before ++ line :: after)
     = lineEvents currentEvent (before ++ after)
  /\ flat_map (lineEvents None)
       (earlier ++ (before ++ line :: after) :: later)
     = flat_map (lineEvents None) (earlier ++ (before ++ after) :: later)
  /\ (forall chunks,
        chunkLines [] (decodeAll TextDecoder.initial chunks)
        = earlier ++ (before ++ line :: after) :: later ->
        streamEvents chunks
        = flat_map (lineEvents None) (earlier ++ (before ++ after) :: later))
  /\ (forall pending gap good data rest,
        Forall ignored gap ->
        startsWith good (lit "data: ") = true ->
        JSON.parse (trim (substring good 6)) = Some data ->
        labelSet pending = true \/ data <> Null ->
        lineEvents pending (line :: gap ++ good :: rest)
        = mkSSEEvent (tagOf pending data) data :: lineEvents None rest).
Proof.
  intros H1 H2.
  assert (Hp : forall pending, processLine pending line = (pending, None))
    by (intros; now apply processLine_malformed).
  assert (Hf : forall D (f : D -> SSEEvent -> Control D) cur d,
             forLines f cur (before ++ line :: after) d
             = forLines f cur (before ++ after) d).
  { intros D f. induction before as [|l ls IH]; intros cur d.
    - simpl app. now rewrite forLines_cons, Hp.
    - simpl app. rewrite !forLines_cons.
      destruct (processLine cur l) as [cur' [ev|]]; [|apply IH].
      destruct (f d ev); try reflexivity. apply IH. }
  assert (Hl : forall cur, lineEvents cur (before ++ line :: after)
                           = lineEvents cur (before ++ after))
    by (intros cur; unfold lineEvents; now rewrite Hf).
  assert (Hs : flat_map (lineEvents None)
                 (earlier ++ (before ++ line :: after) :: later)
               = flat_map (lineEvents None)
                   (earlier ++ (before ++ after) :: later)).
  { rewrite !flat_map_app. simpl. now rewrite Hl. }
  split; [exact Hp|]. split; [apply Hf|]. split; [apply Hl|].
  split; [exact Hs|]. split.
  - intros chunks E. now rewrite streamEvents_lines, E.
  - intros pending gap good data rest Hgap Hg Hd Hn.
    assert (E : processLine pending good
                = (None, Some (mkSSEEvent (tagOf pending data) data))).
    { unfold tagOf. destruct pending as [[|ch label]|].
      - destruct Hn as [Hn|Hn]; [discriminate Hn|].
        now apply processLine_inferred.
      - now apply processLine_labelled.
      - destruct Hn as [Hn|Hn]; [discriminate Hn|].
        now apply processLine_inferred. }
    rewrite lineEvents_cons, Hp.
    induction Hgap as [|g gs Hi _ IH].
    + simpl app. now rewrite lineEvents_cons, E.
    + simpl app. rewrite lineEvents_cons.
      now rewrite (processLine_ignored pending g Hi).
Qed.

Lemma C3_malformed_frame_skipped_witness :
  (startsWith truncatedLine (lit "data: ") = true
   /\ JSON.parse (trim (substring truncatedLine 6)) = None)
  /\ lineEvents None ([selectLine] ++ truncatedLine :: [selectLine])
     = [mkSSEEvent (lit "sql") select1; mkSSEEvent (lit "sql") select1]
  /\ lineEvents None (truncatedLine :: [[]] ++ selectLine :: [])
     = [mkSSEEvent (lit "sql") select1].
Proof.
  assert (H1 : startsWith truncatedLine (lit "data: ") = true) by reflexivity.
  assert (H2 : JSON.parse (trim (substring truncatedLine 6)) = None)
    by (vm_compute; reflexivity).
  assert (H3 : Forall ignored [[]])
    by (constructor; [split; reflexivity|constructor]).
  assert (H4 : startsWith selectLine (lit "data: ") = true) by reflexivity.
  assert (H5 : JSON.parse (trim (substring selectLine 6)) = Some select1)
    by (vm_compute; reflexivity).
  assert (H6 : labelSet None = true \/ select1 <> Null)
    by (right; discriminate).
  pose proof (C3_malformed_frame_skipped _ keep None [selectLine]
                [selectLine] truncatedLine [] [] [] H1 H2)
    as (_ & _ & Hskip & _ & _ & Hnext).
  split; [split; assumption|]. split.
  - rewrite Hskip. vm_compute. reflexivity.
  - exact (Hnext None [[]] selectLine select1 [] H3 H4 H5 H6).
Defined.

(** C4, as stated, fails when [releaseLock()] throws: the stream ends at
    once, the [finally] block runs, and the error it raises is the
    completion of the generator and of the loop that consumes it. *)
Lemma C4_release_error_propagates :
  let o := tryFinally keep (mkReader [] (Some releaseError)) [] in
  generator o = Throw releaseError /\ loop o = Throw releaseError.
Proof. split; reflexivity. Qed.

(** C4, amended.  However the [try] block is left (end of stream, a
    rejected read, the consumer leaving the loop by [break] or by an
    exception), [releaseLock()] is called in the [finally] block.  When it
    returns, the lock is released and the generator completes as the [try]
    block did: with the error of the rejected read, or normally.  When it
    throws, nothing catches the error: the generator completes with it, and
    so does the loop unless its own body had thrown. *)
Theorem C4_release_on_every_exit (C : Type)
  (loopBody : C -> SSEEvent -> Control C) (reader : Reader) (c : C) :
  let o := tryFinally loopBody reader c in
  let exit := whileRead loopBody (reads reader) TextDecoder.initial [] c in
  match releaseLock reader with
  | None =>
      lock o = Released
      /\ generator o = match exit with
                       | Failed _ e => Throw e
                       | _ => Normal tt
                       end
      /\ loop o = match exit with
                  | Failed _ e => Throw e
                  | Closed _ (Some e) => Throw e
                  | _ => Normal tt
                  end
  | Some e =>
      lock o = Held
      /\ generator o = Throw e
      /\ loop o = match exit with
                  | Closed _ (Some e') => Throw e'
                  | _ => Throw e
                  end
  end.
Proof.
  unfold tryFinally.
  destruct (whileRead loopBody (reads reader) TextDecoder.initial [] c)
    as [c'|c' e'|c' [e'|]];
    destruct (releaseLock reader) as [e|]; repeat split; reflexivity.
Qed.

(** C5.  When [fetch] resolves to a response that is not [ok], or to one
    without a body, the call fails as a whole: the generator throws, the
    loop body has not run (the consumer's state is the one it started with,
    whatever the body does), and no reader was acquired. *)
Theorem C5_transport_failure (C : Type)
  (loopBody : C -> SSEEvent -> Control C)
  (fetch : Request -> Completion Response)
  (VITE_BACKEND_URL authToken : option jsstring)
  (message chatId : jsstring) (c : C) (response : Response) :
  fetch (streamRequest VITE_BACKEND_URL authToken message chatId)
  = Normal response ->
  ok response = false \/ body response = None ->
  let o := streamAgentResponse loopBody fetch VITE_BACKEND_URL authToken
             message chatId c in
  let e :=
    if ok response then mkError (lit "Error") (lit "No response body")
    else mkError (lit "Error")
                 (lit "HTTP error! status: " ++ ofN (status response)) in
  consumer o = c /\ lock o = NotAcquired
  /\ generator o = Throw e /\ loop o = Throw e.
Proof.
  intros Hf H. unfold streamAgentResponse. rewrite Hf.
  destruct (ok response) eqn:Hok; cbn [negb].
  - destruct H as [H|H]; [discriminate|]. rewrite H. repeat split.
  - repeat split.
Qed.

Lemma C5_transport_failure_witness :
  let response := mkResponse false 503 None (Normal Null) in
  let fetch := fun _ : Request => Normal response in
  (fetch (streamRequest None None (lit "hi") (lit "c1")) = Normal response
   /\ (ok response = false \/ body response = None))
  /\ consumer (streamAgentResponse keep fetch None None (lit "hi") (lit "c1")
                 [])
     = []
  /\ generator (streamAgentResponse keep fetch None None (lit "hi")
                  (lit "c1") [])
     = Throw (mkError (lit "Error") (lit "HTTP error! status: 503")).
Proof.
  intros response fetch.
  assert (H1 : fetch (streamRequest None None (lit "hi") (lit "c1"))
               = Normal response) by reflexivity.
  assert (H2 : ok response = false \/ body response = None)
    by (left; reflexivity).
  pose proof (C5_transport_failure _ keep fetch None None (lit "hi")
                (lit "c1") [] response H1 H2) as (Hc & _ & Hg & _).
  split; [split; assumption|]. split; [exact Hc|exact Hg].
Defined.

(** C6.  After a chunk is appended, the buffer is cut at its line feeds:
    the text is the parsed lines, each with its line feed, followed by the
    new residual buffer, and neither a parsed line nor the residual buffer
    contains a line feed.  The events of a stream come from these lines
    only.  Over a whole stream the lines parsed are the
    terminated lines of the whole text, each once, however the text is cut
    into chunks; a line that arrives in two pieces [a] and [b] is not
    parsed after the first and is parsed, whole, after the second. *)
Theorem C6_complete_lines_only (buffer text a b : jsstring)
  (texts : list jsstring) (chunks : list (list Byte.byte)) :
  ~ In LF a -> ~ In LF b ->
  (let (lines, buffer') := feed buffer text in
   buffer ++ text = terminated lines ++ buffer'
   /\ Forall (fun l => ~ In LF l) lines
   /\ ~ In LF buffer')
  /\ streamEvents chunks
     = flat_map (lineEvents None)
                (chunkLines [] (decodeAll TextDecoder.initial chunks))
  /\ concat (chunkLines [] texts) = removelast (split (concat texts))
  /\ chunkLines [] [a; b ++ [LF]] = [[]; [a ++ b]].
Proof.
  intros Ha Hb. split; [|split; [apply streamEvents_lines|split]].
  - unfold feed, pop.
    pose proof (split_no_LF (buffer ++ text)) as HF.
    pose proof (split_nonempty (buffer ++ text)) as Hne.
    split; [symmetry; apply split_join|].
    destruct (exists_last Hne) as (ls & x & E). rewrite E in *.
    rewrite removelast_last, last_last.
    apply Forall_app in HF as [HF1 HF2]. split; [exact HF1|].
    now inversion HF2.
  - apply chunkLines_whole.
  - simpl chunkLines. unfold feed, pop. simpl app.
    rewrite (split_line a Ha). cbn [removelast last].
    assert (E : split (a ++ b ++ [LF]) = [a ++ b; []]).
    { rewrite app_assoc. apply split_line_LF.
      intros H; apply in_app_or in H as [H|H]; contradiction. }
    rewrite E. reflexivity.
Qed.

Lemma C6_complete_lines_only_witness :
  let a := json "data: {'sql':" in
  let b := json "'SELECT 1;'}" in
  (~ In LF a /\ ~ In LF b)
  /\ chunkLines [] [a; b ++ [LF]] = [[]; [selectLine]].
Proof.
  intros a b.
  assert (Ha : ~ In LF a) by no_LF.
  assert (Hb : ~ In LF b) by no_LF.
  split; [split; assumption|].
  exact (proj2 (proj2 (proj2 (C6_complete_lines_only [] [] a b [] [] Ha Hb)))).
Defined.

(** C7.  A line that yields an event leaves no pending label, so the next
    [data: ] line, reached over lines that are neither labels nor data, is
    handled without a label: the event it yields is tagged by inference
    from its payload (a [null] payload, whose inference throws, yields
    none); and a label line with no [data: ] line after it among the lines
    being processed adds no event. *)
Theorem C7_label_cleared_after_emission (currentEvent cur' : option jsstring)
  (first next labelLine : jsstring) (gap rest before after : list jsstring)
  (ev : SSEEvent) (data : Value) :
  processLine currentEvent first = (cur', Some ev) ->
  Forall ignored gap ->
  startsWith next (lit "data: ") = true ->
  JSON.parse (trim (substring next 6)) = Some data ->
  startsWith labelLine (lit "event: ") = true ->
  Forall notData after ->
  cur' = None
  /\ lineEvents currentEvent (first :: gap ++ next :: rest)
     = ev :: match data with
             | Null => []
             | _ => [mkSSEEvent (truthyTag data) data]
             end ++ lineEvents None rest
  /\ lineEvents currentEvent (before ++ labelLine :: after)
     = lineEvents currentEvent before.
Proof.
  intros Hfirst Hgap Hnext Hparse Hlabel Hafter.
  pose proof (processLine_yield_clears _ _ _ _ Hfirst) as ->.
  split; [reflexivity|]. split.
  - rewrite lineEvents_cons, Hfirst. f_equal.
    induction Hgap as [|g gs Hg _ IH].
    + simpl app. rewrite lineEvents_cons.
      assert (Hnull : data = Null \/ data <> Null)
        by (destruct data; (now left) || (right; discriminate)).
      destruct Hnull as [->|Hnull].
      * now rewrite (processLine_null None next eq_refl Hnext Hparse).
      * rewrite (processLine_inferred None next data eq_refl Hnext Hparse
                   Hnull).
        now destruct data.
    + simpl app. rewrite lineEvents_cons.
      now rewrite (processLine_ignored None g Hg).
  - clear Hfirst. revert currentEvent.
    induction before as [|l ls IH]; intros cur.
    + simpl app. rewrite lineEvents_cons, (processLine_event _ _ Hlabel).
      unfold lineEvents. now rewrite forLines_notData.
    + simpl app. rewrite !lineEvents_cons.
      destruct (processLine cur l) as [cur1 [e|]]; now rewrite IH.
Qed.

Lemma C7_label_cleared_after_emission_witness :
  let label := lit "event: sql" in
  let blank : jsstring := [] in
  let data := Object [(lit "sql", Str (lit "SELECT 1;"))] in
  (processLine (Some (lit "sql")) selectLine
   = (None, Some (mkSSEEvent (lit "sql") data))
   /\ Forall ignored [blank]
   /\ startsWith selectLine (lit "data: ") = true
   /\ JSON.parse (trim (substring selectLine 6)) = Some data
   /\ startsWith label (lit "event: ") = true
   /\ Forall notData [blank])
  /\ lineEvents None ([label; selectLine; blank] ++ label :: [blank])
     = lineEvents None [label; selectLine; blank].
Proof.
  intros label blank data.
  assert (H1 : processLine (Some (lit "sql")) selectLine
               = (None, Some (mkSSEEvent (lit "sql") data)))
    by (vm_compute; reflexivity).
  assert (H2 : Forall ignored [blank])
    by (constructor; [split; reflexivity|constructor]).
  assert (H3 : startsWith selectLine (lit "data: ") = true) by reflexivity.
  assert (H4 : JSON.parse (trim (substring selectLine 6)) = Some data)
    by (vm_compute; reflexivity).
  assert (H6 : startsWith label (lit "event: ") = true) by reflexivity.
  assert (H7 : Forall notData [blank])
    by (constructor; [reflexivity|constructor]).
  split; [repeat split; assumption|].
  exact (proj2 (proj2 (C7_label_cleared_after_emission (Some (lit "sql"))
                         None selectLine selectLine label [blank] []
                         [label; selectLine; blank] [blank]
                         (mkSSEEvent (lit "sql") data) data
                         H1 H2 H3 H4 H6 H7))).
Defined.

(* ================================================================== *)
(** * The session state *)
(* ================================================================== *)

Section Session.

Variable listChats : Completion (list App.Chat).
Variable format : jsstring -> Completion jsstring.

Lemma filter_names_NoDup (entry : App.ToolStatus)
  (ts : list App.ToolStatus) :
  NoDup (map App.name ts) ->
  NoDup (map App.name
           (filter (fun t => negb (JS.eqb (App.name t) (App.name entry))) ts
            ++ [entry])).
Proof.
  intros H. induction ts as [|t ts IH]; simpl.
  - constructor; [intros []|constructor].
  - inversion H as [|? ? Hnotin Hnd]; subst.
    destruct (JS.eqb (App.name t) (App.name entry)) eqn:E; simpl;
      [now apply IH|].
    constructor; [|now apply IH].
    rewrite map_app, in_app_iff. intros [Hin|[Hin|[]]].
    + apply Hnotin. apply in_map_iff in Hin as (t' & Ht' & Hin).
      apply filter_In in Hin as [Hin _]. apply in_map_iff. now exists t'.
    + rewrite <- Hin, eqb_refl in E. discriminate.
Qed.

(** A tool event replaces the entry of its name: the list keeps one entry
    per name. *)
Lemma updateTools_oneEntryPerName (now : Z) (n s : jsstring)
  (st : App.State) :
  oneEntryPerName st -> oneEntryPerName (App.updateTools now n s st).
Proof.
  unfold oneEntryPerName, App.updateTools. intros H.
  pose proof (filter_names_NoDup (App.mkToolStatus n s now) _ H) as H'.
  destruct (JS.eqb s (lit "start")); exact H'.
Qed.

(** A status other than [start] starts a timer of 2000 ms for the entry's
    timestamp; [start] starts none. *)
Lemma updateTools_timers (now : Z) (n s : jsstring) (st : App.State) :
  App.timers (App.updateTools now n s st)
  = if JS.eqb s (lit "start") then App.timers st
    else App.timers st ++ [App.mkTimer (now + 2000) now].
Proof.
  unfold App.updateTools. now destruct (JS.eqb s (lit "start")).
Qed.

Lemma fire_oneEntryPerName (st : App.State) (tm : App.Timer) :
  oneEntryPerName st -> oneEntryPerName (App.fire st tm).
Proof.
  unfold oneEntryPerName, App.fire. cbn [App.activeTools App.setActiveTools].
  generalize (App.activeTools st) as ts.
  induction ts as [|t ts IH]; intros H; [exact H|].
  inversion H as [|? ? Hnotin Hnd]; subst. simpl.
  destruct (negb (App.timestamp t =? App.expired tm)%Z); [|now apply IH].
  simpl. constructor; [|now apply IH].
  intros Hin. apply Hnotin. apply in_map_iff in Hin as (t' & Ht' & Hin).
  apply filter_In in Hin as [Hin _]. apply in_map_iff. now exists t'.
Qed.

Lemma elapse_oneEntryPerName (now : Z) (st : App.State) :
  oneEntryPerName st -> oneEntryPerName (App.elapse now st).
Proof.
  unfold App.elapse.
  destruct (partition (fun tm => (App.due tm <=? now)%Z) (App.timers st))
    as [dueNow later].
  intros H.
  assert (H' : oneEntryPerName
                 (App.mkState (App.messages st) (App.currentSql st)
                    (App.currentChatId st) (App.chats st)
                    (App.activeTools st) (App.contextUsage st)
                    (App.lastFullText st) later)) by exact H.
  revert H'. generalize (App.mkState (App.messages st) (App.currentSql st)
                    (App.currentChatId st) (App.chats st)
                    (App.activeTools st) (App.contextUsage st)
                    (App.lastFullText st) later) as st0.
  induction dueNow as [|tm tms IH]; intros st0 H0; [exact H0|].
  simpl. apply IH. now apply fire_oneEntryPerName.
Qed.

(** Events other than [tool] leave the tool list alone. *)
Lemma onEvent_oneEntryPerName (now : Z) (st st' : App.State)
  (ev : App.SSEEvent) :
  App.onEvent listChats format now st ev = Normal st' ->
  oneEntryPerName st -> oneEntryPerName st'.
Proof.
  unfold App.onEvent. intros H Hinv.
  destruct (JS.eqb (App.event ev) (lit "tool")
            && App.truthy (App.toolName (App.data ev))
            && App.truthy (App.toolStatus (App.data ev))).
  { destruct (App.toolName (App.data ev)), (App.toolStatus (App.data ev));
      injection H as <-; try exact Hinv.
    now apply updateTools_oneEntryPerName. }
  destruct (JS.eqb (App.event ev) (lit "context")
            && App.truthy (App.eventChatId (App.data ev))).
  { destruct (App.eventChatId (App.data ev)); injection H as <-; exact Hinv. }
  destruct (JS.eqb (App.event ev) (lit "chat_rollover")
            && App.truthy (App.newChatId (App.data ev))).
  { injection H as <-. unfold App.refreshChatList.
    destruct (App.newChatId (App.data ev)), listChats; exact Hinv. }
  destruct (JS.eqb (App.event ev) (lit "delta")
            && App.definedField (App.fullText (App.data ev))).
  { destruct (App.fullText (App.data ev)) as [t|];
      [|injection H as <-; exact Hinv].
    destruct (nonEmpty (trim t) || nonEmpty (App.lastFullText st));
      [|injection H as <-; exact Hinv].
    destruct (App.setLastText (App.messages st) (trim t)); [|discriminate].
    injection H as <-. exact Hinv. }
  destruct (JS.eqb (App.event ev) (lit "sql")
            && App.truthy (App.sql (App.data ev))).
  { destruct (App.sql (App.data ev)); injection H as <-; exact Hinv. }
  destruct (JS.eqb (App.event ev) (lit "done")).
  { assert (E : forall m : Completion App.State,
               (forall s1, m = Normal s1 -> oneEntryPerName s1) ->
               JS.bind m
                 (fun st1 =>
                    match App.finalSql (App.data ev) with
                    | Some q =>
                        if nonEmpty q
                        then Normal (App.setSql st1 (App.formatSqlSafely format q))
                        else Normal st1
                    | None => Normal st1
                    end) = Normal st' -> oneEntryPerName st').
    { intros [s1|e] Hs1 Hb; [|discriminate]. cbn [JS.bind] in Hb.
      specialize (Hs1 s1 eq_refl).
      destruct (App.finalSql (App.data ev)) as [q|];
        [destruct (nonEmpty q)|]; injection Hb as <-; exact Hs1. }
    refine (E _ _ H). clear E H. intros s1 Hs1.
    destruct (App.finalText (App.data ev)) as [t|];
      [|injection Hs1 as <-; exact Hinv].
    destruct (nonEmpty t && nonEmpty (trim t));
      [|injection Hs1 as <-; exact Hinv].
    destruct (App.setLastText (App.messages st) (trim t)); [|discriminate].
    injection Hs1 as <-. exact Hinv. }
  destruct (JS.eqb (App.event ev) (lit "error")); injection H as <-;
    exact Hinv.
Qed.

Lemma play_oneEntryPerName (arrivals : list (Z * App.SSEEvent))
  (st st' : App.State) :
  App.play listChats format arrivals st = Normal st' ->
  oneEntryPerName st -> oneEntryPerName st'.
Proof.
  revert st; induction arrivals as [|[now ev] rest IH]; intros st H Hinv.
  - simpl in H. now injection H as <-.
  - simpl in H.
    destruct (App.onEvent listChats format now (App.elapse now st) ev)
      as [st1|] eqn:E; [|discriminate].
    simpl in H. apply (IH st1 H).
    apply (onEvent_oneEntryPerName _ _ _ _ E).
    now apply elapse_oneEntryPerName.
Qed.

Lemma setLastText_last (ms : list App.Message) (m : App.Message)
  (t : jsstring) :
  App.setLastText (ms ++ [m]) t
  = Normal (ms ++ [App.mkMessage (App.role m) t]).
Proof.
  induction ms as [|x ms IH]; [reflexivity|].
  simpl app. simpl App.setLastText. rewrite IH.
  destruct (ms ++ [m]) eqn:E; [|reflexivity].
  now apply app_eq_nil in E as [_ E].
Qed.

End Session.

(** C8.  A [start] entry does not always stay until it is replaced: the
    timer of a [done] entry removes every entry that carries the same
    timestamp.  When [done] for one tool and [start] for another are
    handled in the same millisecond, both entries are in the list, and both
    are gone once the timer has run, although no event replaced the [start]
    entry. *)
Theorem C8_start_entry_removed_by_other_timer :
  exists st,
    App.play noChats noFormat
      [(1000%Z, toolEvent "create_table" "done");
       (1000%Z, toolEvent "list_tables" "start")] opened = Normal st
    /\ App.activeTools st
       = [App.mkToolStatus (lit "create_table") (lit "done") 1000;
          App.mkToolStatus (lit "list_tables") (lit "start") 1000]
    /\ App.timers st = [App.mkTimer 3000 1000]
    /\ App.activeTools (App.elapse 3000 st) = [].
Proof. eexists. repeat split; vm_compute; reflexivity. Qed.




(** C10, as stated, fails on an [ok] response whose body is the JSON value
    [null]: [executeSql] resolves to [null], which is not an
    [ExecutionResult]. *)
Lemma C10_null_body_resolves_to_null :
  let fetch := fun _ : Request =>
                 Normal (mkResponse true 200 None (Normal Null)) in
  let completion :=
    snd (executeSql fetch None None (mkSupabaseConfig (lit "ref") (lit "token"))
           (lit "SELECT 1;")) in
  completion = Normal (ResponseBody Null)
  /\ isExecutionResult (ResponseBody Null) = false.
Proof. split; reflexivity. Qed.

(** C10, amended.  [executeSql] never rejects.  With an empty [projectRef]
    or [accessToken] it issues no request and resolves to the failure
    [Supabase Project Ref or Access Token is missing.]; otherwise it issues
    one request; a rejected [fetch], a body that is not JSON and a failure
    to read the error body all resolve to a result with [success] false and
    a string message; a response that is not [ok] resolves to a result with
    [success] false whose message is the [detail] or [message] of the body
    as it is, or [Error] and the status; and the body of an [ok] response
    is returned as it is, unchecked.  So the value is an [ExecutionResult]
    except, possibly, in the last two cases. *)
Theorem C10_executeSql_total (fetch : Request -> Completion Response)
  (VITE_BACKEND_URL authToken : option jsstring) (config : SupabaseConfig)
  (sql : jsstring) :
  let request := executeRequest VITE_BACKEND_URL authToken config sql in
  let (requests, completion) :=
    executeSql fetch VITE_BACKEND_URL authToken config sql in
  (exists result, completion = Normal result)
  /\ match projectRef config, accessToken config with
     | _ :: _, _ :: _ =>
         requests = [request]
         /\ match fetch request with
            | Throw e =>
                exists m, completion = Normal (Result false (Str m) None)
            | Normal response =>
                match responseJson response with
                | Throw e =>
                    exists m, completion = Normal (Result false (Str m) None)
                | Normal data =>
                    if ok response then completion = Normal (ResponseBody data)
                    else
                      match failureMessage data (status response) with
                      | Normal m =>
                          completion = Normal (Result false m (Some data))
                      | Throw _ =>
                          exists m,
                            completion = Normal (Result false (Str m) None)
                      end
                end
            end
     | _, _ =>
         requests = []
         /\ completion
            = Normal (Result false
                        (Str (lit "Supabase Project Ref or Access Token is missing."))
                        None)
     end
  /\ (forall result,
        completion = Normal result ->
        isExecutionResult result = false ->
        exists response data,
          fetch request = Normal response
          /\ responseJson response = Normal data
          /\ if ok response then result = ResponseBody data
             else exists m,
                 failureMessage data (status response) = Normal m
                 /\ result = Result false m (Some data)).
Proof.
  unfold executeSql.
  destruct (projectRef config) as [|p ps]; cbn [nonEmpty negb orb];
    [split; [eexists; reflexivity|]; split; [split; reflexivity|];
     intros result [= <-] H; discriminate H|].
  destruct (accessToken config) as [|a ts]; cbn [nonEmpty negb orb];
    [split; [eexists; reflexivity|]; split; [split; reflexivity|];
     intros result [= <-] H; discriminate H|].
  destruct (fetch _) as [response|e] eqn:Ef; cbn [tryCatch bind].
  - destruct (responseJson response) as [data|e] eqn:Ej; cbn [tryCatch bind].
    + destruct (ok response) eqn:Eo; cbn [negb].
      * split; [eexists; reflexivity|]. split; [split; reflexivity|].
        intros result [= <-] _. exists response, data.
        rewrite Eo. repeat split. exact Ej.
      * destruct (failureMessage data (status response)) as [m|e] eqn:Em;
          cbn [tryCatch bind].
        -- split; [eexists; reflexivity|]. split; [split; reflexivity|].
           intros result [= <-] _. exists response, data.
           rewrite Eo. repeat split; [exact Ej|]. now exists m.
        -- split; [eexists; reflexivity|].
           split; [split; [reflexivity|now eexists]|].
           intros result [= <-] H. discriminate H.
    + split; [eexists; reflexivity|].
      split; [split; [reflexivity|now eexists]|].
      intros result [= <-] H. discriminate H.
  - split; [eexists; reflexivity|].
    split; [split; [reflexivity|now eexists]|].
    intros result [= <-] H. discriminate H.
Qed.

Lemma C10_executeSql_total_witness :
  let fetch := fun _ : Request =>
                 Normal (mkResponse false 500 None
                           (Normal (Object [(lit "detail",
                                             Array [Str (lit "down")])]))) in
  let result :=
    Result false (Array [Str (lit "down")])
           (Some (Object [(lit "detail", Array [Str (lit "down")])])) in
  (snd (executeSql fetch None None (mkSupabaseConfig (lit "ref") (lit "token"))
          (lit "SELECT 1;")) = Normal result
   /\ isExecutionResult result = false)
  /\ exists response data,
       fetch (executeRequest None None
                (mkSupabaseConfig (lit "ref") (lit "token")) (lit "SELECT 1;"))
       = Normal response
       /\ responseJson response = Normal data
       /\ ok response = false.
Proof.
  intros fetch result.
  assert (H1 : snd (executeSql fetch None None
                      (mkSupabaseConfig (lit "ref") (lit "token"))
                      (lit "SELECT 1;")) = Normal result) by reflexivity.
  assert (H2 : isExecutionResult result = false) by reflexivity.
  split; [split; assumption|].
  destruct (proj2 (proj2 (C10_executeSql_total fetch None None
                            (mkSupabaseConfig (lit "ref") (lit "token"))
                            (lit "SELECT 1;"))) result H1 H2)
    as (response & data & Hf & Hj & Hr).
  exists response, data. split; [exact Hf|]. split; [exact Hj|].
  destruct (ok response); [subst result; discriminate Hr|reflexivity].
Defined.

(* ================================================================== *)
(** * Further properties of the generator *)
(* ================================================================== *)

Section Generator.

Variable C : Type.
Variable loopBody : C -> SSEEvent -> Control C.

Lemma deliver_app (evs1 evs2 : list SSEEvent) (c : C) :
  deliver loopBody (evs1 ++ evs2) c
  = match deliver loopBody evs1 c with
    | Continue c' => deliver loopBody evs2 c'
    | stop => stop
    end.
Proof.
  revert c; induction evs1 as [|ev evs IH]; intros c; [reflexivity|].
  simpl. destruct (loopBody c ev); try reflexivity. apply IH.
Qed.

(** The loop over the reads hands the loop body the events of the lines
    parsed after each read, up to the first rejected read. *)
Lemma whileRead_deliver (rs : list ReadResult) (decoder : TextDecoder.State)
  (buffer : jsstring) (c : C) :
  whileRead loopBody rs decoder buffer c
  = match deliver loopBody
            (flat_map (lineEvents None)
               (chunkLines buffer (decodeAll decoder (chunksBefore rs)))) c
    with
    | Continue c' =>
        match firstRejection rs with
        | Some e => Failed c' e
        | None => Done c'
        end
    | Break c' => Closed c' None
    | Raise c' e => Closed c' (Some e)
    end.
Proof.
  revert decoder buffer c.
  induction rs as [|[v|e] rs IH]; intros decoder buffer c;
    [reflexivity| |reflexivity].
  cbn [whileRead chunksBefore decodeAll firstRejection].
  destruct (TextDecoder.decode decoder v) as [decoder' text].
  cbn [chunkLines]. destruct (feed buffer text) as [lines buffer'].
  cbn [flat_map]. rewrite deliver_app, <- forLines_deliver.
  destruct (forLines loopBody None lines c); [apply IH|reflexivity..].
Qed.

End Generator.

(** X1.  Whatever the loop body does, it is handed the events of the
    chunks read before the first rejected read, in order, up to the one at
    which it leaves the loop.  The generator completes with the error of
    [releaseLock()] when that throws, else with the error of the rejected
    read when the body was still in the loop, else normally, also when the
    body left the loop by an exception.  The [for await] completes with the
    body's exception when it threw one, and as the generator otherwise. *)
Theorem events_delivered_in_order (C : Type)
  (loopBody : C -> SSEEvent -> Control C) (reader : Reader) (c : C) :
  let o := tryFinally loopBody reader c in
  let d := deliver loopBody (streamEvents (chunksBefore (reads reader))) c in
  consumer o = stateOf d
  /\ generator o
     = match releaseLock reader with
       | Some e => Throw e
       | None =>
           match d, firstRejection (reads reader) with
           | Continue _, Some e => Throw e
           | _, _ => Normal tt
           end
       end
  /\ loop o = match d with
              | Raise _ e => Throw e
              | _ => generator o
              end
  /\ lock o = match releaseLock reader with
              | Some _ => Held
              | None => Released
              end.
Proof.
  unfold tryFinally. rewrite whileRead_deliver, streamEvents_lines.
  destruct (deliver loopBody _ c) as [c'|c'|c' e];
    destruct (firstRejection (reads reader));
    destruct (releaseLock reader); repeat split.
Qed.

Section Labels.

Lemma sameLabel_refl (c : option jsstring) : sameLabel c c.
Proof. now left. Qed.

Lemma unset_default (c : option jsstring) :
  labelSet c = false ->
  match c with
  | Some label => if nonEmpty label then label else lit "delta"
  | None => lit "delta"
  end = lit "delta".
Proof.
  destruct c as [l|]; [|reflexivity]. simpl. now intros ->.
Qed.

(** Two values of [currentEvent] that are the same label, or both no
    label, give a line the same effect. *)
Lemma processLine_sameLabel (c1 c2 : option jsstring) (line : jsstring) :
  sameLabel c1 c2 ->
  snd (processLine c1 line) = snd (processLine c2 line)
  /\ sameLabel (fst (processLine c1 line)) (fst (processLine c2 line)).
Proof.
  intros [->|[H1 H2]]; [split; [reflexivity|apply sameLabel_refl]|].
  unfold processLine.
  destruct (startsWith line (lit "event: "));
    [split; [reflexivity|apply sameLabel_refl]|].
  destruct (startsWith line (lit "data: "));
    [|split; [reflexivity|now right]].
  destruct (negb (nonEmpty (trim (substring line 6))));
    [split; [reflexivity|now right]|].
  destruct (JSON.parse (trim (substring line 6))) as [data|];
    [|split; [reflexivity|now right]].
  rewrite H1, H2, (unset_default c1 H1), (unset_default c2 H2).
  cbn [negb].
  destruct (inferEventType (lit "delta") data);
    split; try reflexivity; [apply sameLabel_refl|now right].
Qed.

Lemma lineEvents_sameLabel (lines : list jsstring)
  (c1 c2 : option jsstring) :
  sameLabel c1 c2 -> lineEvents c1 lines = lineEvents c2 lines.
Proof.
  revert c1 c2; induction lines as [|l ls IH]; intros c1 c2 H;
    [reflexivity|].
  rewrite !lineEvents_cons.
  destruct (processLine_sameLabel c1 c2 l H) as [E1 E2].
  destruct (processLine c1 l) as [c1' [e1|]],
           (processLine c2 l) as [c2' [e2|]];
    simpl in E1, E2; try discriminate.
  - injection E1 as ->. f_equal. now apply IH.
  - now apply IH.
Qed.

Lemma lineEvents_app (l1 l2 : list jsstring) (cur : option jsstring) :
  lineEvents cur (l1 ++ l2)
  = lineEvents cur l1 ++ lineEvents (pendingAfter cur l1) l2.
Proof.
  revert cur; induction l1 as [|l ls IH]; intros cur; [reflexivity|].
  simpl app. rewrite !lineEvents_cons. unfold pendingAfter. simpl fold_left.
  fold (pendingAfter (fst (processLine cur l)) ls).
  destruct (processLine cur l) as [cur' [ev|]]; simpl fst;
    now rewrite IH.
Qed.

Lemma flat_map_settled (groups : list (list jsstring)) :
  Forall (fun g => labelSet (pendingAfter None g) = false) groups ->
  flat_map (lineEvents None) groups = lineEvents None (concat groups).
Proof.
  induction 1 as [|g gs Hg _ IH]; [reflexivity|].
  simpl. rewrite lineEvents_app, IH. f_equal.
  apply lineEvents_sameLabel. right. now split.
Qed.

Lemma streamEvents_single (chunk : list Byte.byte) :
  streamEvents [chunk]
  = lineEvents None
      (removelast
         (split (snd (TextDecoder.decode TextDecoder.initial chunk)))).
Proof.
  rewrite streamEvents_lines. cbn [decodeAll].
  destruct (TextDecoder.decode TextDecoder.initial chunk) as [st text].
  cbn [snd chunkLines flat_map]. unfold feed, pop. simpl app.
  cbn [flat_map]. now rewrite app_nil_r.
Qed.

End Labels.

Ltac each_computed :=
  match goal with
  | |- Forall ?P ?l =>
      let l' := eval vm_compute in l in
      change (Forall P l');
      repeat (constructor; [vm_compute; reflexivity|]); constructor
  end.

(** X2.  When no read ends with a label pending (every [event: ] line is
    followed, within the lines parsed after the same read, by the [data: ]
    line that uses it), the events do not depend on how the bytes are cut
    into chunks. *)
Theorem chunking_immaterial_without_pending_label
  (chunks : list (list Byte.byte)) :
  Forall (fun lines => labelSet (pendingAfter None lines) = false)
         (chunkLines [] (decodeAll TextDecoder.initial chunks)) ->
  streamEvents chunks = streamEvents [concat chunks].
Proof.
  intros H. rewrite streamEvents_single, streamEvents_lines.
  rewrite (flat_map_settled _ H), chunkLines_whole, decodeAll_concat.
  reflexivity.
Qed.

Lemma chunking_immaterial_without_pending_label_witness :
  let all := bytes labelledFrame ++ bytes labelledFrame in
  let n := (length (bytes labelledFrame) + 4)%nat in
  let chunks := [firstn 5 all; skipn 5 (firstn n all); skipn n all] in
  Forall (fun lines => labelSet (pendingAfter None lines) = false)
         (chunkLines [] (decodeAll TextDecoder.initial chunks))
  /\ streamEvents chunks
     = [mkSSEEvent (lit "done") finalSql1; mkSSEEvent (lit "done") finalSql1].
Proof.
  intros all n chunks.
  assert (H : Forall (fun lines => labelSet (pendingAfter None lines) = false)
                (chunkLines [] (decodeAll TextDecoder.initial chunks)))
    by each_computed.
  split; [exact H|].
  rewrite (chunking_immaterial_without_pending_label chunks H).
  vm_compute. reflexivity.
Defined.

Section Tail.

Lemma residual_no_LF (texts : list jsstring) (buffer : jsstring) :
  ~ In LF buffer -> ~ In LF (residual buffer texts).
Proof.
  revert buffer; induction texts as [|t ts IH]; intros buffer Hb;
    [exact Hb|].
  simpl. apply IH. unfold feed, pop. cbn [snd].
  pose proof (split_no_LF (buffer ++ t)) as HF.
  pose proof (split_nonempty (buffer ++ t)) as Hne.
  destruct (exists_last Hne) as (l & x & E). rewrite E in *.
  rewrite last_last. apply Forall_app in HF as [_ HF]. now inversion HF.
Qed.

Lemma chunkLines_snoc (texts : list jsstring) (t buffer : jsstring) :
  chunkLines buffer (texts ++ [t])
  = chunkLines buffer texts ++ [fst (feed (residual buffer texts) t)].
Proof.
  revert buffer; induction texts as [|x xs IH]; intros buffer.
  - simpl. now destruct (feed buffer t).
  - simpl. destruct (feed buffer x) as [lines buffer'].
    simpl. now rewrite IH.
Qed.

Lemma decodeAll_snoc (chunks : list (list Byte.byte))
  (chunk : list Byte.byte) (st : TextDecoder.State) :
  decodeAll st (chunks ++ [chunk])
  = decodeAll st chunks ++ [last (decodeAll st (chunks ++ [chunk])) []].
Proof.
  revert st; induction chunks as [|v vs IH]; intros st.
  - simpl. now destruct (TextDecoder.decode st chunk).
  - simpl. destruct (TextDecoder.decode st v) as [st1 t1].
    rewrite (IH st1) at 1. simpl app.
    destruct (decodeAll st1 (vs ++ [chunk])) eqn:E; [|reflexivity].
    destruct vs; simpl in E; destruct (TextDecoder.decode st1 _);
      discriminate.
Qed.

End Tail.

(** X3.  Text after the last line feed is never parsed: a last chunk
    whose decoded text has no line feed adds no event, so a final frame
    without its terminating line feed is lost when the stream ends. *)
Theorem unterminated_tail_dropped (chunks : list (list Byte.byte))
  (chunk : list Byte.byte) :
  ~ In LF (last (decodeAll TextDecoder.initial (chunks ++ [chunk])) []) ->
  streamEvents (chunks ++ [chunk]) = streamEvents chunks.
Proof.
  intros H. rewrite !streamEvents_lines, decodeAll_snoc, chunkLines_snoc.
  rewrite flat_map_app. unfold feed, pop. cbn [fst].
  rewrite split_line.
  - simpl. now rewrite app_nil_r.
  - intros Hin. apply in_app_or in Hin as [Hin|Hin]; [|contradiction].
    revert Hin. apply residual_no_LF. intros [].
Qed.

Lemma unterminated_tail_dropped_witness :
  ~ In LF (last (decodeAll TextDecoder.initial
                   ([example1] ++ [bytes selectLine])) [])
  /\ streamEvents ([example1] ++ [bytes selectLine])
     = [mkSSEEvent (lit "sql") select1].
Proof.
  assert (H : ~ In LF (last (decodeAll TextDecoder.initial
                               ([example1] ++ [bytes selectLine])) []))
    by no_LF.
  split; [exact H|].
  rewrite (unterminated_tail_dropped [example1] (bytes selectLine) H).
  vm_compute. reflexivity.
Defined.

(** X4.  The label of an [event: ] line is the tag of the next [data: ]
    line of the same chunk as it stands, trimmed: it is not checked against
    the seven tags, and no inference is made, even for a [null] payload. *)
Theorem explicit_label_taken_verbatim (currentEvent : option jsstring)
  (labelLine dataLine : jsstring) (gap rest : list jsstring) (data : Value) :
  startsWith labelLine (lit "event: ") = true ->
  nonEmpty (trim (substring labelLine 7)) = true ->
  Forall ignored gap ->
  startsWith dataLine (lit "data: ") = true ->
  JSON.parse (trim (substring dataLine 6)) = Some data ->
  lineEvents currentEvent (labelLine :: gap ++ dataLine :: rest)
  = mkSSEEvent (trim (substring labelLine 7)) data :: lineEvents None rest.
Proof.
  intros Hl Hne Hgap Hd Hp.
  rewrite lineEvents_cons, (processLine_event _ _ Hl).
  induction Hgap as [|g gs Hg _ IH].
  - simpl app. rewrite lineEvents_cons.
    now rewrite (processLine_labelled _ _ _ Hne Hd Hp).
  - simpl app. rewrite lineEvents_cons.
    now rewrite (processLine_ignored _ g Hg).
Qed.

Lemma explicit_label_taken_verbatim_witness :
  (startsWith bogusLabelLine (lit "event: ") = true
   /\ nonEmpty (trim (substring bogusLabelLine 7)) = true
   /\ Forall ignored [[]]
   /\ startsWith nullLine (lit "data: ") = true
   /\ JSON.parse (trim (substring nullLine 6)) = Some Null)
  /\ lineEvents None (bogusLabelLine :: [[]] ++ nullLine :: [])
     = [mkSSEEvent (lit "bogus") Null].
Proof.
  assert (H1 : startsWith bogusLabelLine (lit "event: ") = true)
    by reflexivity.
  assert (H2 : nonEmpty (trim (substring bogusLabelLine 7)) = true)
    by reflexivity.
  assert (H3 : Forall ignored [[]])
    by (constructor; [split; reflexivity|constructor]).
  assert (H4 : startsWith nullLine (lit "data: ") = true) by reflexivity.
  assert (H5 : JSON.parse (trim (substring nullLine 6)) = Some Null)
    by (vm_compute; reflexivity).
  split; [repeat split; assumption|].
  exact (explicit_label_taken_verbatim None bogusLabelLine nullLine [[]] []
           Null H1 H2 H3 H4 H5).
Defined.

(** X5.  A line that starts with neither [event: ] nor [data: ] (a blank
    line, a comment, another field, or [data:] written without the space)
    has no effect: whatever the loop body, the lines are processed as if it
    were not there. *)
Theorem other_lines_have_no_effect (C : Type)
  (loopBody : C -> SSEEvent -> Control C) (currentEvent : option jsstring)
  (before after : list jsstring) (line : jsstring) (c : C) :
  ignored line ->
  forLines loopBody currentEvent (before ++ line :: after) c
  = forLines loopBody currentEvent (before ++ after) c.
Proof.
  intros H. revert currentEvent c.
  induction before as [|l ls IH]; intros cur c.
  - simpl app. now rewrite forLines_cons, (processLine_ignored _ _ H).
  - simpl app. rewrite !forLines_cons.
    destruct (processLine cur l) as [cur' [ev|]]; [|apply IH].
    destruct (loopBody c ev); try reflexivity. apply IH.
Qed.

Lemma other_lines_have_no_effect_witness :
  ignored unspacedLine
  /\ forLines keep None ([selectLine] ++ unspacedLine :: [selectLine]) []
     = forLines keep None ([selectLine] ++ [selectLine]) [].
Proof.
  assert (H : ignored unspacedLine) by (split; reflexivity).
  split; [exact H|].
  exact (other_lines_have_no_effect _ keep None [selectLine] [selectLine]
           unspacedLine [] H).
Defined.

(** X6.  Only the authenticated calls carry the token: the requests of
    [executeSql] and [checkBackendHealth] never have an [Authorization]
    header, and those of [streamAgentResponse] and of the chat calls have
    [Bearer] followed by the token exactly when a non-empty token is set. *)
Theorem authorization_header (VITE_BACKEND_URL authToken : option jsstring)
  (message chatId method sql : jsstring) (config : SupabaseConfig) :
  let bearer :=
    match authToken with
    | Some (c :: t) => Some (lit "Bearer " ++ c :: t)
    | _ => None
    end in
  authorization (headers (executeRequest VITE_BACKEND_URL authToken config
                            sql)) = None
  /\ authorization (headers (ChatService.healthRequest VITE_BACKEND_URL
                               authToken)) = None
  /\ authorization (headers (streamRequest VITE_BACKEND_URL authToken message
                               chatId)) = bearer
  /\ authorization (headers (ChatService.createChatRequest VITE_BACKEND_URL
                               authToken)) = bearer
  /\ authorization (headers (ChatService.listChatsRequest VITE_BACKEND_URL
                               authToken)) = bearer
  /\ authorization (headers (ChatService.chatRequest VITE_BACKEND_URL
                               authToken method chatId)) = bearer.
Proof.
  destruct authToken as [[|c t]|]; repeat split; reflexivity.
Qed.

(* ================================================================== *)
(** * The health and chat calls *)
(* ================================================================== *)

Section ChatCalls.

Import ChatService.

Variable NumberToString : Number -> jsstring.
Variable fetch : Request -> Completion ChatResponse.
Variable VITE_BACKEND_URL : option jsstring.
Variable authToken : option jsstring.

Lemma startsWith_app_r (s p q : jsstring) :
  startsWith s p = true -> startsWith (s ++ q) p = true.
Proof.
  revert s; induction p as [|c p IH]; intros s H; [reflexivity|].
  destruct s as [|d s]; [discriminate|]. simpl in *.
  apply andb_prop in H as [H1 H2]. now rewrite H1, IH.
Qed.

Lemma includes_app_r (s p q : jsstring) :
  includes s p = true -> includes (s ++ q) p = true.
Proof.
  induction s as [|c s IH]; intros H.
  - simpl in H. rewrite orb_false_r in H.
    destruct p; [|discriminate]. now destruct q.
  - simpl in H. apply orb_prop in H as [H|H].
    + pose proof (startsWith_app_r (c :: s) p q H) as E.
      simpl app in *. cbn [includes]. now rewrite E.
    + simpl app. cbn [includes]. rewrite (IH H). apply orb_true_r.
Qed.

Lemma includes_app_l (s p q : jsstring) :
  includes s p = true -> includes (q ++ s) p = true.
Proof.
  intros H. induction q as [|c q IH]; [exact H|].
  simpl app. cbn [includes]. rewrite IH. apply orb_true_r.
Qed.

Lemma rethrow_throws (A : Type) (e : Error) :
  exists e', @rethrow A e = Throw e'.
Proof. unfold rethrow. destruct (isNetworkError e); eexists; reflexivity. Qed.

End ChatCalls.

(** X7.  [checkBackendHealth] never rejects, and it answers [true] exactly
    when [fetch] resolves to a response that is [ok]. *)
Theorem health_check_never_rejects
  (fetch : Request -> Completion ChatService.ChatResponse)
  (VITE_BACKEND_URL authToken : option jsstring) :
  exists healthy,
    ChatService.checkBackendHealth fetch VITE_BACKEND_URL authToken
    = Normal healthy
    /\ (healthy = true <->
        exists r,
          fetch (ChatService.healthRequest VITE_BACKEND_URL authToken)
          = Normal r
          /\ ok (ChatService.response r) = true).
Proof.
  unfold ChatService.checkBackendHealth.
  destruct (fetch _) as [r|e]; cbn [tryCatch JS.bind].
  - exists (ok (ChatService.response r)). split; [reflexivity|]. split.
    + intros H. now exists r.
    + intros (r' & [= <-] & H). exact H.
  - exists false. split; [reflexivity|]. split; [discriminate|].
    intros (r & H & _). discriminate.
Qed.

(** X8.  [createChat] and [getChat] resolve exactly when the response is
    [ok] and its body is JSON, and then to that body as it is; in every
    other case they reject. *)
Theorem chat_resolves_only_on_ok_json (NumberToString : Number -> jsstring)
  (fetch : Request -> Completion ChatService.ChatResponse)
  (VITE_BACKEND_URL authToken : option jsstring) (chatId : jsstring)
  (chat : Value) :
  (ChatService.createChat NumberToString fetch VITE_BACKEND_URL authToken
   = Normal chat
   <-> exists r,
         fetch (ChatService.createChatRequest VITE_BACKEND_URL authToken)
         = Normal r
         /\ ok (ChatService.response r) = true
         /\ responseJson (ChatService.response r) = Normal chat)
  /\ (ChatService.getChat NumberToString fetch VITE_BACKEND_URL authToken
        chatId = Normal chat
      <-> exists r,
            fetch (ChatService.chatRequest VITE_BACKEND_URL authToken
                     (lit "GET") chatId) = Normal r
            /\ ok (ChatService.response r) = true
            /\ responseJson (ChatService.response r) = Normal chat).
Proof.
  split.
  - unfold ChatService.createChat.
    destruct (fetch _) as [r|e]; cbn [tryCatch JS.bind].
    + destruct (ok (ChatService.response r)) eqn:Hok; cbn [negb].
      * destruct (responseJson (ChatService.response r)) as [d|e] eqn:Hj;
          cbn [tryCatch].
        -- split; [intros [= <-]; now exists r|].
           intros (r' & [= <-] & _ & H). congruence.
        -- destruct (rethrow_throws Value e) as [e' ->].
           split; [discriminate|].
           intros (r' & [= <-] & _ & H). congruence.
      * destruct (ChatService.errorMessage r) as [m|e]; cbn [tryCatch JS.bind];
          match goal with
          | |- context [ChatService.rethrow ?x] =>
              destruct (rethrow_throws Value x) as [e' ->]
          end;
          (split; [discriminate|]);
          intros (r' & [= <-] & H & _); congruence.
    + destruct (rethrow_throws Value e) as [e' ->].
      split; [discriminate|]. intros (r & H & _). discriminate.
  - unfold ChatService.getChat.
    destruct (fetch _) as [r|e]; cbn [tryCatch JS.bind].
    + destruct (ok (ChatService.response r)) eqn:Hok; cbn [negb].
      * destruct (responseJson (ChatService.response r)) as [d|e] eqn:Hj;
          cbn [tryCatch].
        -- split; [intros [= <-]; now exists r|].
           intros (r' & [= <-] & _ & H). congruence.
        -- destruct (rethrow_throws Value e) as [e' ->].
           split; [discriminate|].
           intros (r' & [= <-] & _ & H). congruence.
      * destruct (ChatService.errorMessage r) as [m|e]; cbn [tryCatch JS.bind];
          [destruct (status (ChatService.response r) =? 401)%N|];
          cbn [tryCatch];
          match goal with
          | |- context [ChatService.rethrow ?x] =>
              destruct (rethrow_throws Value x) as [e' ->]
          end;
          (split; [discriminate|]);
          intros (r' & [= <-] & H & _); congruence.
    + destruct (rethrow_throws Value e) as [e' ->].
      split; [discriminate|]. intros (r & H & _). discriminate.
Qed.

(** X9.  When [fetch] rejects with an error whose message contains
    [Failed to fetch] or [NetworkError], [createChat] and [getChat] reject
    with [Cannot connect to backend. Is the server running?], while
    [listChats] and [deleteChat] reject with the error itself. *)
Theorem network_failure_reported (NumberToString : Number -> jsstring)
  (fetch : Request -> Completion ChatService.ChatResponse)
  (VITE_BACKEND_URL authToken : option jsstring) (chatId : jsstring)
  (e : Error) :
  (forall request, fetch request = Throw e) ->
  ChatService.isNetworkError e = true ->
  ChatService.createChat NumberToString fetch VITE_BACKEND_URL authToken
  = Throw ChatService.cannotConnect
  /\ ChatService.getChat NumberToString fetch VITE_BACKEND_URL authToken
       chatId = Throw ChatService.cannotConnect
  /\ ChatService.listChats fetch VITE_BACKEND_URL authToken = Throw e
  /\ ChatService.deleteChat fetch VITE_BACKEND_URL authToken chatId
     = Throw e.
Proof.
  intros Hf He.
  unfold ChatService.createChat, ChatService.getChat, ChatService.listChats,
    ChatService.deleteChat.
  rewrite !Hf. cbn [tryCatch JS.bind]. unfold ChatService.rethrow.
  rewrite He. repeat split.
Qed.

Lemma network_failure_reported_witness :
  let fetch := fun _ : Request =>
                 @Throw ChatService.ChatResponse failedToFetch in
  ((forall request, fetch request = Throw failedToFetch)
   /\ ChatService.isNetworkError failedToFetch = true)
  /\ ChatService.createChat plainNumber fetch None None
     = Throw ChatService.cannotConnect.
Proof.
  intros fetch.
  assert (H1 : forall request, fetch request = Throw failedToFetch)
    by reflexivity.
  assert (H2 : ChatService.isNetworkError failedToFetch = true)
    by reflexivity.
  split; [split; assumption|].
  exact (proj1 (network_failure_reported plainNumber fetch None None []
                  failedToFetch H1 H2)).
Defined.

(** X10.  The same words in the [detail] of an HTTP error have the same
    effect: when the response is not [ok] and the [detail] of its body is a
    string that contains [Failed to fetch] or [NetworkError], [createChat]
    and [getChat] reject with [Cannot connect to backend. Is the server
    running?], whatever the status. *)
Theorem network_words_in_detail (NumberToString : Number -> jsstring)
  (fetch : Request -> Completion ChatService.ChatResponse)
  (VITE_BACKEND_URL authToken : option jsstring) (chatId detail : jsstring)
  (r : ChatService.ChatResponse) :
  (forall request, fetch request = Normal r) ->
  ok (ChatService.response r) = false ->
  field (ChatService.errorData r) "detail" = Some (Str detail) ->
  ChatService.isNetworkError (mkError [] detail) = true ->
  ChatService.createChat NumberToString fetch VITE_BACKEND_URL authToken
  = Throw ChatService.cannotConnect
  /\ ChatService.getChat NumberToString fetch VITE_BACKEND_URL authToken
       chatId = Throw ChatService.cannotConnect.
Proof.
  intros Hf Hok Hd Hn.
  assert (Hne : nonEmpty detail = true).
  { destruct detail; [discriminate Hn|reflexivity]. }
  assert (Hm : ChatService.errorMessage r = Normal (Str detail)).
  { unfold ChatService.errorMessage.
    destruct (ChatService.errorData r) as [| | | |xs|ps] eqn:E;
      try discriminate Hd.
    cbn [Get JS.bind]. simpl in Hd. rewrite Hd. unfold orElse.
    cbn [ToBoolean]. destruct detail; [discriminate|reflexivity]. }
  assert (Hw : forall p q,
             ChatService.isNetworkError
               (mkError (lit "Error") (p ++ detail ++ q)) = true).
  { intros p q. unfold ChatService.isNetworkError in *. cbn [JS.message] in *.
    apply orb_prop in Hn as [Hn|Hn].
    - rewrite (includes_app_l _ _ p
                 (includes_app_r _ _ q Hn)). reflexivity.
    - rewrite (includes_app_l _ _ p
                 (includes_app_r _ _ q Hn)). apply orb_true_r. }
  unfold ChatService.createChat, ChatService.getChat.
  rewrite !Hf. cbn [tryCatch JS.bind]. rewrite Hok. cbn [negb].
  rewrite Hm. cbn [tryCatch JS.bind ChatService.ToString].
  unfold ChatService.rethrow. split.
  - specialize (Hw (lit "Failed to create chat: ") []).
    rewrite app_nil_r in Hw. now rewrite Hw.
  - destruct (status (ChatService.response r) =? 401)%N; cbn [tryCatch].
    + now rewrite (Hw (lit "Authentication failed: ")
                      (lit ". Please sign in again.")).
    + specialize (Hw (lit "Failed to get chat: ") []).
      rewrite app_nil_r in Hw. now rewrite Hw.
Qed.

Lemma network_words_in_detail_witness :
  let r := chatResponse false 502
             (Normal (Object [(lit "detail",
                               Str (lit "upstream NetworkError"))]))
             "Bad Gateway" in
  let fetch := fun _ : Request => Normal r in
  ((forall request, fetch request = Normal r)
   /\ ok (ChatService.response r) = false
   /\ field (ChatService.errorData r) "detail"
      = Some (Str (lit "upstream NetworkError"))
   /\ ChatService.isNetworkError (mkError [] (lit "upstream NetworkError"))
      = true)
  /\ ChatService.createChat plainNumber fetch None None
     = Throw ChatService.cannotConnect.
Proof.
  intros r fetch.
  assert (H1 : forall request, fetch request = Normal r) by reflexivity.
  assert (H2 : ok (ChatService.response r) = false) by reflexivity.
  assert (H3 : field (ChatService.errorData r) "detail"
               = Some (Str (lit "upstream NetworkError"))) by reflexivity.
  assert (H4 : ChatService.isNetworkError
                 (mkError [] (lit "upstream NetworkError")) = true)
    by reflexivity.
  split; [repeat split; assumption|].
  exact (proj1 (network_words_in_detail plainNumber fetch None None []
                  (lit "upstream NetworkError") r H1 H2 H3 H4)).
Defined.

(** X11.  [deleteChat] resolves exactly when the response is [ok];
    [listChats] resolves exactly when the response is [ok] and its body is
    JSON other than [null], and then to the [chats] property of the body,
    [undefined] when the body has none. *)
Theorem list_and_delete_resolve_only_on_ok
  (fetch : Request -> Completion ChatService.ChatResponse)
  (VITE_BACKEND_URL authToken : option jsstring) (chatId : jsstring)
  (chats : option Value) :
  (ChatService.deleteChat fetch VITE_BACKEND_URL authToken chatId = Normal tt
   <-> exists r,
         fetch (ChatService.chatRequest VITE_BACKEND_URL authToken
                  (lit "DELETE") chatId) = Normal r
         /\ ok (ChatService.response r) = true)
  /\ (ChatService.listChats fetch VITE_BACKEND_URL authToken = Normal chats
      <-> exists r data,
            fetch (ChatService.listChatsRequest VITE_BACKEND_URL authToken)
            = Normal r
            /\ ok (ChatService.response r) = true
            /\ responseJson (ChatService.response r) = Normal data
            /\ data <> Null
            /\ chats = field data "chats").
Proof.
  split.
  - unfold ChatService.deleteChat.
    destruct (fetch _) as [r|e]; cbn [JS.bind].
    + destruct (ok (ChatService.response r)) eqn:Hok; cbn [negb].
      * split; [intros _; now exists r|reflexivity].
      * destruct (ChatService.responseText r); cbn [JS.bind];
          (split; [discriminate|]);
          intros (r' & [= <-] & H); congruence.
    + split; [discriminate|]. intros (r & H & _). discriminate.
  - unfold ChatService.listChats.
    destruct (fetch _) as [r|e]; cbn [JS.bind].
    + destruct (ok (ChatService.response r)) eqn:Hok; cbn [negb].
      * destruct (responseJson (ChatService.response r)) as [d|e] eqn:Hj;
          cbn [JS.bind].
        -- split.
           ++ intros H. exists r, d.
              destruct d; cbn [Get] in H; try discriminate H;
                injection H as <-;
                repeat split; try assumption; try discriminate; reflexivity.
           ++ intros (r' & d' & [= <-] & _ & H & Hn & ->).
              rewrite Hj in H. injection H as <-.
              destruct d; try reflexivity. congruence.
        -- split; [discriminate|].
           intros (r' & d' & [= <-] & _ & H & _). congruence.
      * destruct (ChatService.responseText r); cbn [JS.bind];
          (split; [discriminate|]);
          intros (r' & d' & [= <-] & H & _); congruence.
    + split; [discriminate|]. intros (r & d & H & _). discriminate.
Qed.

(* ================================================================== *)
(** * Further properties of the session *)
(* ================================================================== *)

Section Tools.

Variable listChats : Completion (list App.Chat).
Variable format : jsstring -> Completion jsstring.

Lemma consume_oneEntryPerName (arrivals : list (Z * App.SSEEvent))
  (st : App.State) :
  oneEntryPerName st ->
  oneEntryPerName (fst (Handlers.consume listChats format arrivals st)).
Proof.
  revert st; induction arrivals as [|[now ev] rest IH]; intros st Hinv;
    [exact Hinv|].
  cbn [Handlers.consume].
  destruct (App.onEvent listChats format now (App.elapse now st) ev)
    as [st1|e] eqn:E.
  - apply IH.
    apply (onEvent_oneEntryPerName listChats format _ _ _ _ E).
    now apply elapse_oneEntryPerName.
  - cbn [fst]. now apply elapse_oneEntryPerName.
Qed.

End Tools.

(** X12.  [handleSendMessage] never leaves two entries for the same tool in
    [activeTools]: if the names in the list were distinct before the send,
    they are distinct after it, whatever events arrive, whenever the timers
    run in between and however the stream ends. *)
Theorem send_keeps_one_entry_per_tool
  (listChats : Completion (list App.Chat))
  (format : jsstring -> Completion jsstring)
  (arrivals : list (Z * App.SSEEvent)) (ending : Completion unit)
  (s : Handlers.Session) :
  oneEntryPerName (Handlers.app s) ->
  oneEntryPerName
    (Handlers.app
       (Handlers.handleSendMessage listChats format arrivals ending s)).
Proof.
  intros Hinv. unfold Handlers.handleSendMessage.
  destruct (negb (nonEmpty (trim (Handlers.input s))) || Handlers.isTyping s);
    [exact Hinv|].
  destruct (App.currentChatId (Handlers.app s)) as [[|c cs]|];
    try exact Hinv.
  pose proof (consume_oneEntryPerName listChats format arrivals
                (App.setLastFullText
                   (Handlers.pushMessage
                      (Handlers.pushMessage (Handlers.app s)
                         (App.mkMessage App.user (Handlers.input s)))
                      (App.mkMessage App.model [])) []) Hinv) as H.
  destruct (Handlers.consume _ _ _ _) as [st3 thrown].
  cbn [fst] in H. cbn [Handlers.app].
  destruct thrown, ending; exact H.
Qed.

Lemma send_keeps_one_entry_per_tool_witness :
  oneEntryPerName (Handlers.app ready)
  /\ oneEntryPerName
       (Handlers.app
          (Handlers.handleSendMessage noChats noFormat
             [(1000%Z, toolEvent "create_table" "start");
              (1500%Z, toolEvent "create_table" "done");
              (1600%Z, toolEvent "list_tables" "start")]
             (Normal tt) ready)).
Proof.
  assert (H : oneEntryPerName (Handlers.app ready)) by constructor.
  split; [exact H|].
  exact (send_keeps_one_entry_per_tool noChats noFormat
           [(1000%Z, toolEvent "create_table" "start");
            (1500%Z, toolEvent "create_table" "done");
            (1600%Z, toolEvent "list_tables" "start")]
           (Normal tt) ready H).
Defined.

Section Timers.

Lemma fold_fire_In (tms : list App.Timer) (st : App.State)
  (t : App.ToolStatus) :
  In t (App.activeTools (fold_left App.fire tms st)) ->
  In t (App.activeTools st)
  /\ Forall (fun tm => App.timestamp t <> App.expired tm) tms.
Proof.
  revert st; induction tms as [|tm tms IH]; intros st H.
  - split; [exact H|constructor].
  - simpl in H. apply IH in H as [H1 H2].
    unfold App.fire in H1. cbn [App.activeTools App.setActiveTools] in H1.
    apply filter_In in H1 as [H1 H3]. split; [exact H1|].
    constructor; [|exact H2].
    apply negb_true_iff, Z.eqb_neq in H3. exact H3.
Qed.

End Timers.

(** X13.  An entry whose status is not [start] is gone 2000 ms after it was
    recorded: once the clock shows that time or later, no entry of the tool
    list carries its timestamp. *)
Theorem finished_entry_expires (now later : Z) (n s : jsstring)
  (st : App.State) (t : App.ToolStatus) :
  JS.eqb s (lit "start") = false ->
  (now + 2000 <= later)%Z ->
  In t (App.activeTools (App.elapse later (App.updateTools now n s st))) ->
  App.timestamp t <> now.
Proof.
  intros Hs Hl Hin. unfold App.elapse in Hin.
  rewrite partition_as_filter in Hin.
  apply fold_fire_In in Hin as [_ HF].
  rewrite Forall_forall in HF.
  apply (HF (App.mkTimer (now + 2000) now)).
  apply filter_In. split; [|simpl; now apply Z.leb_le].
  rewrite updateTools_timers, Hs. apply in_or_app. right. now left.
Qed.

Lemma finished_entry_expires_witness :
  let st := App.updateTools 1000 (lit "create_table") (lit "done") opened in
  (JS.eqb (lit "done") (lit "start") = false
   /\ (1000 + 2000 <= 3000)%Z)
  /\ App.activeTools st
     = [App.mkToolStatus (lit "create_table") (lit "done") 1000]
  /\ forall t, In t (App.activeTools (App.elapse 3000 st)) ->
               App.timestamp t <> 1000%Z.
Proof.
  intros st.
  assert (H1 : JS.eqb (lit "done") (lit "start") = false) by reflexivity.
  assert (H2 : (1000 + 2000 <= 3000)%Z) by lia.
  split; [split; assumption|]. split; [reflexivity|].
  intros t.
  exact (finished_entry_expires 1000 3000 (lit "create_table") (lit "done")
           opened t H1 H2).
Defined.

Section Transcript.

Variable listChats : Completion (list App.Chat).
Variable format : jsstring -> Completion jsstring.

Lemma fold_fire_messages (tms : list App.Timer) (st : App.State) :
  App.messages (fold_left App.fire tms st) = App.messages st.
Proof.
  revert st; induction tms as [|tm tms IH]; intros st; [reflexivity|].
  simpl. now rewrite IH.
Qed.

Lemma elapse_messages (now : Z) (st : App.State) :
  App.messages (App.elapse now st) = App.messages st.
Proof.
  unfold App.elapse.
  destruct (partition _ (App.timers st)) as [dueNow later].
  now rewrite fold_fire_messages.
Qed.

(** With a message in the transcript the loop body does not throw; it
    leaves the messages before the last one alone, and leaves at least one
    after them. *)
Lemma onEvent_transcript (now : Z) (st : App.State) (ev : App.SSEEvent)
  (pre : list App.Message) (m : App.Message) :
  App.messages st = pre ++ [m] ->
  exists st' tail,
    App.onEvent listChats format now st ev = Normal st'
    /\ App.messages st' = pre ++ tail /\ tail <> [].
Proof.
  intros Hm. unfold App.onEvent.
  assert (Hsame : exists st' tail,
             @Normal App.State st = Normal st'
             /\ App.messages st' = pre ++ tail /\ tail <> []).
  { exists st, [m]. repeat split; [exact Hm|discriminate]. }
  destruct (JS.eqb (App.event ev) (lit "tool")
            && App.truthy (App.toolName (App.data ev))
            && App.truthy (App.toolStatus (App.data ev))).
  { destruct (App.toolName (App.data ev)) as [n|],
             (App.toolStatus (App.data ev)) as [s|]; try exact Hsame.
    eexists _, [m]. split; [reflexivity|]. split; [|discriminate].
    unfold App.updateTools. now destruct (JS.eqb s (lit "start")). }
  destruct (JS.eqb (App.event ev) (lit "context")
            && App.truthy (App.eventChatId (App.data ev))).
  { destruct (App.eventChatId (App.data ev)); [|exact Hsame].
    eexists _, [m]. split; [reflexivity|]. split; [exact Hm|discriminate]. }
  destruct (JS.eqb (App.event ev) (lit "chat_rollover")
            && App.truthy (App.newChatId (App.data ev))).
  { eexists _, ([m] ++ [App.mkMessage App.model App.rolloverNotice]).
    split; [reflexivity|]. split; [|discriminate].
    cbn [App.messages App.setMessages]. rewrite app_assoc. f_equal.
    unfold App.refreshChatList.
    destruct (App.newChatId (App.data ev)), listChats; exact Hm. }
  destruct (JS.eqb (App.event ev) (lit "delta")
            && App.definedField (App.fullText (App.data ev))).
  { destruct (App.fullText (App.data ev)) as [t|]; [|exact Hsame].
    destruct (nonEmpty (trim t) || nonEmpty (App.lastFullText st));
      [|exact Hsame].
    rewrite Hm, setLastText_last. cbn [JS.bind].
    eexists _, [_]. split; [reflexivity|]. split; [reflexivity|discriminate]. }
  destruct (JS.eqb (App.event ev) (lit "sql")
            && App.truthy (App.sql (App.data ev))).
  { destruct (App.sql (App.data ev)); [|exact Hsame].
    eexists _, [m]. split; [reflexivity|]. split; [exact Hm|discriminate]. }
  destruct (JS.eqb (App.event ev) (lit "done")).
  { assert (H1 : exists st1 tail,
               match App.finalText (App.data ev) with
               | Some t =>
                   if nonEmpty t && nonEmpty (trim t)
                   then JS.bind (App.setLastText (App.messages st) (trim t))
                          (fun ms => Normal (App.setMessages st ms))
                   else Normal st
               | None => Normal st
               end = Normal st1
               /\ App.messages st1 = pre ++ tail /\ tail <> []).
    { destruct (App.finalText (App.data ev)) as [t|]; [|exact Hsame].
      destruct (nonEmpty t && nonEmpty (trim t)); [|exact Hsame].
      rewrite Hm, setLastText_last. cbn [JS.bind].
      eexists _, [_]. split; [reflexivity|].
      split; [reflexivity|discriminate]. }
    destruct H1 as (st1 & tail & -> & Hm1 & Hne). cbn [JS.bind].
    destruct (App.finalSql (App.data ev)) as [q|];
      [destruct (nonEmpty q)|];
      eexists _, tail; (split; [reflexivity|]); split; assumption. }
  destruct (JS.eqb (App.event ev) (lit "error")); [|exact Hsame].
  eexists _, ([m] ++ [_]). split; [reflexivity|]. split; [|discriminate].
  cbn [App.messages App.setMessages]. now rewrite Hm, app_assoc.
Qed.

Lemma onEvent_delta (now : Z) (st : App.State) (ev : App.SSEEvent)
  (t : jsstring) (ms : list App.Message) (m : App.Message) :
  App.event ev = lit "delta" ->
  App.fullText (App.data ev) = Some t ->
  App.messages st = ms ++ [m] ->
  nonEmpty (trim t) = true ->
  App.onEvent listChats format now st ev
  = Normal (App.setMessages (App.setLastFullText st (trim t))
              (ms ++ [App.mkMessage (App.role m) (trim t)])).
Proof.
  intros He Hf Hm Hne. unfold App.onEvent. rewrite He, Hf, Hm, Hne.
  change (JS.eqb (lit "delta") (lit "tool")) with false.
  change (JS.eqb (lit "delta") (lit "context")) with false.
  change (JS.eqb (lit "delta") (lit "chat_rollover")) with false.
  change (JS.eqb (lit "delta") (lit "delta")) with true.
  cbn [andb orb App.definedField]. now rewrite setLastText_last.
Qed.

Lemma consume_transcript (arrivals : list (Z * App.SSEEvent))
  (st : App.State) (pre tail : list App.Message) :
  App.messages st = pre ++ tail -> tail <> [] ->
  exists st' tail',
    Handlers.consume listChats format arrivals st = (st', None)
    /\ App.messages st' = pre ++ tail' /\ tail' <> [].
Proof.
  revert st tail; induction arrivals as [|[now ev] rest IH];
    intros st tail Hm Hne.
  - exists st, tail. repeat split; assumption.
  - destruct (exists_last Hne) as (tail0 & m & ->).
    assert (Hm' : App.messages (App.elapse now st) = (pre ++ tail0) ++ [m])
      by (now rewrite elapse_messages, Hm, app_assoc).
    destruct (onEvent_transcript now _ ev _ _ Hm')
      as (st1 & tail1 & E & Hm1 & Hne1).
    simpl. rewrite E. rewrite <- app_assoc in Hm1.
    apply (IH st1 (tail0 ++ tail1) Hm1).
    intros H. apply app_eq_nil in H as [_ H]. contradiction.
Qed.

End Transcript.

(** X14.  A send that passes the guards (a question typed, no send in
    flight, a chat selected) leaves the earlier messages as they were and
    puts the question right after them, followed by at least one message;
    the input is cleared and [isTyping] is false at the end, however the
    stream ends; when the stream ends with an error the last message is the
    generic one; and the rest of the session outside the state the loop
    updates is left alone. *)
Theorem send_keeps_transcript (listChats : Completion (list App.Chat))
  (format : jsstring -> Completion jsstring)
  (arrivals : list (Z * App.SSEEvent)) (ending : Completion unit)
  (s : Handlers.Session) (c : N) (cs : jsstring) :
  nonEmpty (trim (Handlers.input s)) = true ->
  Handlers.isTyping s = false ->
  App.currentChatId (Handlers.app s) = Some (c :: cs) ->
  let s' := Handlers.handleSendMessage listChats format arrivals ending s in
  s' = Handlers.mkSession (Handlers.app s') [] false (Handlers.loadingChats s)
         (Handlers.executing s) (Handlers.executionResult s)
         (Handlers.supabaseConfig s) (Handlers.clearTimers s)
  /\ exists tail,
       App.messages (Handlers.app s')
       = App.messages (Handlers.app s)
         ++ App.mkMessage App.user (Handlers.input s) :: tail
       /\ tail <> []
       /\ match ending with
          | Throw _ =>
              last tail Handlers.greeting
              = App.mkMessage App.model App.genericError
          | Normal _ => True
          end.
Proof.
  intros Hi Ht Hc. unfold Handlers.handleSendMessage.
  rewrite Hi, Ht, Hc. cbn [negb orb].
  set (pre := App.messages (Handlers.app s)
              ++ [App.mkMessage App.user (Handlers.input s)]).
  destruct (consume_transcript listChats format arrivals
              (App.setLastFullText
                 (Handlers.pushMessage
                    (Handlers.pushMessage (Handlers.app s)
                       (App.mkMessage App.user (Handlers.input s)))
                    (App.mkMessage App.model [])) [])
              pre [App.mkMessage App.model []] eq_refl ltac:(discriminate))
    as (st3 & tail & E & Hm & Hne).
  rewrite E. cbn [Handlers.isTyping Handlers.input Handlers.app].
  split; [reflexivity|].
  destruct ending as [u|e].
  - exists tail. subst pre. rewrite Hm, <- app_assoc.
    repeat split; assumption.
  - exists (tail ++ [App.mkMessage App.model App.genericError]).
    unfold Handlers.pushMessage. cbn [App.messages App.setMessages].
    subst pre. rewrite Hm, <- !app_assoc. split; [reflexivity|].
    split; [|apply last_last].
    intros H. apply app_eq_nil in H as [_ H]. discriminate.
Qed.

Lemma send_keeps_transcript_witness :
  (nonEmpty (trim (Handlers.input ready)) = true
   /\ Handlers.isTyping ready = false
   /\ App.currentChatId (Handlers.app ready) = Some (97%N :: []))
  /\ Handlers.isTyping
       (Handlers.handleSendMessage noChats noFormat
          [(1000%Z, deltaEvent (lit " users "))] (Throw boom) ready)
     = false.
Proof.
  assert (H1 : nonEmpty (trim (Handlers.input ready)) = true)
    by reflexivity.
  assert (H2 : Handlers.isTyping ready = false) by reflexivity.
  assert (H3 : App.currentChatId (Handlers.app ready) = Some (97%N :: []))
    by reflexivity.
  split; [repeat split; assumption|].
  exact (f_equal Handlers.isTyping
           (proj1 (send_keeps_transcript noChats noFormat
                     [(1000%Z, deltaEvent (lit " users "))] (Throw boom) ready
                     97%N [] H1 H2 H3))).
Defined.

(** X15.  The loop writes text to whatever message is last: after an
    [error] event has appended its message, the next [delta] event with a
    non-blank [fullText] replaces the text of that message, and the reply
    in progress keeps the text it had. *)
Theorem delta_overwrites_error_message
  (listChats : Completion (list App.Chat))
  (format : jsstring -> Completion jsstring) (n1 n2 : Z)
  (ev1 ev2 : App.SSEEvent) (t : jsstring) (st : App.State) :
  App.event ev1 = lit "error" ->
  App.event ev2 = lit "delta" ->
  App.fullText (App.data ev2) = Some t ->
  nonEmpty (trim t) = true ->
  exists st',
    App.play listChats format [(n1, ev1); (n2, ev2)] st = Normal st'
    /\ App.messages st'
       = App.messages st ++ [App.mkMessage App.model (trim t)].
Proof.
  intros He1 He2 Hf Hne. cbn [App.play].
  assert (E1 : exists st1,
             App.onEvent listChats format n1 (App.elapse n1 st) ev1
             = Normal st1
             /\ App.messages st1
                = App.messages st
                  ++ [App.mkMessage App.model
                        match App.message (App.data ev1) with
                        | Some m => if nonEmpty m then m else App.genericError
                        | None => App.genericError
                        end]).
  { unfold App.onEvent. rewrite He1.
    change (JS.eqb (lit "error") (lit "tool")) with false.
    change (JS.eqb (lit "error") (lit "context")) with false.
    change (JS.eqb (lit "error") (lit "chat_rollover")) with false.
    change (JS.eqb (lit "error") (lit "delta")) with false.
    change (JS.eqb (lit "error") (lit "sql")) with false.
    change (JS.eqb (lit "error") (lit "done")) with false.
    change (JS.eqb (lit "error") (lit "error")) with true.
    cbn [andb]. eexists. split; [reflexivity|].
    cbn [App.messages App.setMessages]. now rewrite elapse_messages. }
  destruct E1 as (st1 & -> & Hm1). cbn [JS.bind].
  assert (Hm1' : App.messages (App.elapse n2 st1)
                 = App.messages st
                   ++ [App.mkMessage App.model
                         match App.message (App.data ev1) with
                         | Some m =>
                             if nonEmpty m then m else App.genericError
                         | None => App.genericError
                         end])
    by (now rewrite elapse_messages).
  rewrite (onEvent_delta listChats format n2 (App.elapse n2 st1) ev2 t _ _
             He2 Hf Hm1' Hne).
  eexists. split; reflexivity.
Qed.

Lemma delta_overwrites_error_message_witness :
  (App.event (errorEvent "quota exceeded") = lit "error"
   /\ App.event (deltaEvent (lit "CREATE TABLE")) = lit "delta"
   /\ App.fullText (App.data (deltaEvent (lit "CREATE TABLE")))
      = Some (lit "CREATE TABLE")
   /\ nonEmpty (trim (lit "CREATE TABLE")) = true)
  /\ exists st',
       App.play noChats noFormat
         [(1000%Z, errorEvent "quota exceeded");
          (1001%Z, deltaEvent (lit "CREATE TABLE"))] opened = Normal st'
       /\ App.messages st'
          = App.messages opened
            ++ [App.mkMessage App.model (trim (lit "CREATE TABLE"))].
Proof.
  split; [repeat split|].
  exact (delta_overwrites_error_message noChats noFormat 1000 1001
           (errorEvent "quota exceeded") (deltaEvent (lit "CREATE TABLE"))
           (lit "CREATE TABLE") opened eq_refl eq_refl eq_refl eq_refl).
Defined.

(** X16.  [handleExecute] with SQL to run always ends with [executing]
    false and with an [executionResult] that is not [null]; it starts the
    6000 ms timer that hides the result exactly when the configuration is
    complete, the response is [ok] and the [success] property of its body
    is truthy; and every other part of the session is as it was. *)
Theorem execute_always_shows_a_result
  (fetch : Request -> Completion Response)
  (VITE_BACKEND_URL authToken : option jsstring) (now : Z)
  (s : Handlers.Session) :
  nonEmpty (trim (App.currentSql (Handlers.app s))) = true ->
  let config := Handlers.supabaseConfig s in
  let request :=
    executeRequest VITE_BACKEND_URL authToken config
      (App.currentSql (Handlers.app s)) in
  let reported :=
    match projectRef config, accessToken config with
    | _ :: _, _ :: _ =>
        match fetch request with
        | Normal r =>
            match responseJson r with
            | Normal data => ok r && truthy data "success"
            | Throw _ => false
            end
        | Throw _ => false
        end
    | _, _ => false
    end in
  let s' := snd (Handlers.handleExecute fetch VITE_BACKEND_URL authToken now
                   s) in
  exists result,
    s' = Handlers.mkSession (Handlers.app s) (Handlers.input s)
           (Handlers.isTyping s) (Handlers.loadingChats s) false
           (Some result) (Handlers.supabaseConfig s)
           (if reported then Handlers.clearTimers s ++ [(now + 6000)%Z]
            else Handlers.clearTimers s).
Proof.
  intros Hsql. cbv zeta. unfold Handlers.handleExecute.
  rewrite Hsql. cbn [negb]. unfold executeSql.
  destruct (projectRef (Handlers.supabaseConfig s)) as [|p ps];
    cbn [nonEmpty negb orb]; [eexists; reflexivity|].
  destruct (accessToken (Handlers.supabaseConfig s)) as [|a ts];
    cbn [nonEmpty negb orb]; [eexists; reflexivity|].
  destruct (fetch _) as [r|e]; cbn [tryCatch JS.bind];
    [|eexists; reflexivity].
  destruct (responseJson r) as [data|e]; cbn [tryCatch JS.bind];
    [|eexists; reflexivity].
  destruct (ok r); cbn [negb andb].
  - unfold truthy.
    destruct data; cbn [tryCatch Handlers.succeeded Get JS.bind field];
      try (eexists; reflexivity).
    destruct (ToBoolean (lookup properties (lit "success")));
      eexists; reflexivity.
  - destruct (failureMessage data (status r)); cbn [tryCatch JS.bind];
      eexists; reflexivity.
Qed.

Lemma execute_always_shows_a_result_witness :
  let fetch := fun _ : Request =>
                 Normal (mkResponse true 200 None
                           (Normal (Object [(lit "success", Boolean true)])))
  in
  nonEmpty (trim (App.currentSql (Handlers.app ready))) = true
  /\ Handlers.clearTimers
       (snd (Handlers.handleExecute fetch None None 1000 ready))
     = [7000%Z].
Proof.
  intros fetch.
  assert (H : nonEmpty (trim (App.currentSql (Handlers.app ready))) = true)
    by reflexivity.
  split; [exact H|].
  destruct (execute_always_shows_a_result fetch None None 1000 ready H)
    as [result E].
  exact (f_equal Handlers.clearTimers E).
Defined.

(** X17.  An [ok] response whose body is the JSON value [null] is shown as
    [Critical deployment failure.]: [executeSql] resolves to [null], and
    reading [success] of it throws inside the [try] of [handleExecute]. *)
Theorem null_body_is_critical_failure
  (fetch : Request -> Completion Response)
  (VITE_BACKEND_URL authToken : option jsstring) (now : Z)
  (s : Handlers.Session) (r : Response) :
  nonEmpty (trim (App.currentSql (Handlers.app s))) = true ->
  nonEmpty (projectRef (Handlers.supabaseConfig s)) = true ->
  nonEmpty (accessToken (Handlers.supabaseConfig s)) = true ->
  fetch (executeRequest VITE_BACKEND_URL authToken (Handlers.supabaseConfig s)
           (App.currentSql (Handlers.app s))) = Normal r ->
  ok r = true ->
  responseJson r = Normal Null ->
  snd (executeSql fetch VITE_BACKEND_URL authToken (Handlers.supabaseConfig s)
         (App.currentSql (Handlers.app s))) = Normal (ResponseBody Null)
  /\ Handlers.executionResult
       (snd (Handlers.handleExecute fetch VITE_BACKEND_URL authToken now s))
     = Some Handlers.criticalFailure.
Proof.
  intros Hsql Hp Ha Hf Hok Hj.
  unfold Handlers.handleExecute, executeSql.
  rewrite Hsql, Hp, Ha, Hf. cbn [negb orb tryCatch JS.bind snd].
  rewrite Hj, Hok. cbn [negb tryCatch JS.bind]. split; reflexivity.
Qed.

Lemma null_body_is_critical_failure_witness :
  let r := mkResponse true 200 None (Normal Null) in
  let fetch := fun _ : Request => Normal r in
  (nonEmpty (trim (App.currentSql (Handlers.app ready))) = true
   /\ nonEmpty (projectRef (Handlers.supabaseConfig ready)) = true
   /\ nonEmpty (accessToken (Handlers.supabaseConfig ready)) = true
   /\ fetch (executeRequest None None (Handlers.supabaseConfig ready)
               (App.currentSql (Handlers.app ready))) = Normal r
   /\ ok r = true
   /\ responseJson r = Normal Null)
  /\ Handlers.executionResult
       (snd (Handlers.handleExecute fetch None None 1000 ready))
     = Some Handlers.criticalFailure.
Proof.
  intros r fetch.
  split; [repeat split|].
  exact (proj2 (null_body_is_critical_failure fetch None None 1000 ready r
                  eq_refl eq_refl eq_refl eq_refl eq_refl eq_refl)).
Defined.

Section ChatList.

Variable format : jsstring -> Completion jsstring.
Variable getChat : jsstring -> Completion App.Chat.

Lemma applyChatContextUsage_chats (chat : option App.Chat)
  (st : App.State) :
  App.chats (Handlers.applyChatContextUsage chat st) = App.chats st.
Proof.
  unfold Handlers.applyChatContextUsage.
  destruct chat as [c|]; [|reflexivity].
  now destruct (App.definedField (App.context_cap_chars c)
                && App.definedField (App.context_usage_pct c)).
Qed.

Lemma loadChat_chats (chatId : jsstring) (st : App.State) :
  App.chats (Handlers.loadChat format getChat chatId st) = App.chats st.
Proof.
  unfold Handlers.loadChat. destruct (getChat chatId) as [chat|e];
    [|reflexivity].
  cbn [App.chats App.setMessages]. rewrite applyChatContextUsage_chats.
  destruct (App.latest_sql chat) as [q|]; [|reflexivity].
  now destruct (nonEmpty q && nonEmpty (trim q)).
Qed.

End ChatList.

(** X18.  After [deleteChat] of the component, when the back end accepted
    the deletion the chat list is the old one without the chats of that id,
    in the same order, whether or not the chat was the current one and
    whether or not loading the next one succeeds, and when the deleted chat
    was not the current one nothing else changes; when the back end
    refused, only a message is added to the transcript. *)
Theorem delete_updates_chat_list
  (format : jsstring -> Completion jsstring)
  (getChat : jsstring -> Completion App.Chat)
  (deleteChatCall : jsstring -> Completion unit) (chatId : jsstring)
  (st : App.State) :
  let st' := Handlers.deleteChat format getChat deleteChatCall chatId st in
  let remaining :=
    filter (fun chat => negb (JS.eqb (App.id chat) chatId)) (App.chats st) in
  match deleteChatCall chatId with
  | Normal _ =>
      App.chats st' = remaining
      /\ Forall (fun chat => App.id chat <> chatId) (App.chats st')
      /\ (App.currentChatId st <> Some chatId ->
          st' = App.setChats st remaining)
  | Throw _ =>
      exists m, st' = Handlers.pushMessage st m
  end.
Proof.
  unfold Handlers.deleteChat.
  destruct (deleteChatCall chatId) as [u|e]; [|eexists; reflexivity].
  assert (Hc : App.chats
                 match App.currentChatId st with
                 | Some current =>
                     if JS.eqb current chatId
                     then
                       match
                         filter
                           (fun chat => negb (JS.eqb (App.id chat) chatId))
                           (App.chats st)
                       with
                       | [] =>
                           Handlers.applyChatContextUsage None
                             (App.setMessages
                                (App.setSql
                                   (App.setCurrentChatId
                                      (App.setChats st
                                         (filter
                                            (fun chat =>
                                               negb (JS.eqb (App.id chat)
                                                       chatId))
                                            (App.chats st))) None) [])
                                [Handlers.greeting])
                       | first :: _ =>
                           Handlers.loadChat format getChat (App.id first)
                             (App.setChats st
                                (filter
                                   (fun chat =>
                                      negb (JS.eqb (App.id chat) chatId))
                                   (App.chats st)))
                       end
                     else
                       App.setChats st
                         (filter
                            (fun chat => negb (JS.eqb (App.id chat) chatId))
                            (App.chats st))
                 | None =>
                     App.setChats st
                       (filter
                          (fun chat => negb (JS.eqb (App.id chat) chatId))
                          (App.chats st))
                 end
               = filter (fun chat => negb (JS.eqb (App.id chat) chatId))
                        (App.chats st)).
  { destruct (App.currentChatId st) as [current|]; [|reflexivity].
    destruct (JS.eqb current chatId); [|reflexivity].
    destruct (filter _ (App.chats st)) as [|first rest] eqn:E;
      [reflexivity|].
    now rewrite loadChat_chats. }
  split; [exact Hc|]. split.
  - rewrite Hc. apply Forall_forall. intros chat Hin.
    apply filter_In in Hin as [_ Hin]. apply negb_true_iff in Hin.
    intros Heq. rewrite Heq, eqb_refl in Hin. discriminate.
  - intros Hcur. destruct (App.currentChatId st) as [current|];
      [|reflexivity].
    destruct (JS.eqb current chatId) eqn:E; [|reflexivity].
    apply eqb_eq in E. congruence.
Qed.

Lemma delete_updates_chat_list_witness :
  let getChat := fun _ : jsstring => @Throw App.Chat boom in
  let deleteChatCall := fun _ : jsstring => Normal tt in
  App.currentChatId (Handlers.app ready) <> Some (lit "b")
  /\ Handlers.deleteChat noFormat getChat deleteChatCall (lit "b")
       (Handlers.app ready)
     = App.setChats (Handlers.app ready) [chatA].
Proof.
  intros getChat deleteChatCall.
  assert (H : App.currentChatId (Handlers.app ready) <> Some (lit "b"))
    by discriminate.
  split; [exact H|].
  exact (proj2 (proj2 (delete_updates_chat_list noFormat getChat
                         deleteChatCall (lit "b") (Handlers.app ready))) H).
Defined.

(** X19.  When the chat deleted is the current one, other chats remain and
    loading the first of them fails, the current chat is still the deleted
    one although the list no longer has it: the only trace of the failure
    is the message added to the transcript. *)
Theorem deleted_chat_stays_current_when_load_fails
  (format : jsstring -> Completion jsstring)
  (getChat : jsstring -> Completion App.Chat)
  (deleteChatCall : jsstring -> Completion unit) (chatId : jsstring)
  (st : App.State) (first : App.Chat) (rest : list App.Chat) (e : Error) :
  deleteChatCall chatId = Normal tt ->
  App.currentChatId st = Some chatId ->
  filter (fun chat => negb (JS.eqb (App.id chat) chatId)) (App.chats st)
  = first :: rest ->
  getChat (App.id first) = Throw e ->
  let st' := Handlers.deleteChat format getChat deleteChatCall chatId st in
  App.currentChatId st' = Some chatId
  /\ ~ currentListed st'
  /\ App.messages st'
     = App.messages st
       ++ [App.mkMessage App.model
             (Handlers.warningSign ++ lit " Failed to load chat: "
              ++ Handlers.messageOr e (lit "Unknown error"))].
Proof.
  intros Hd Hc Hr Hg. cbv zeta. unfold Handlers.deleteChat.
  rewrite Hd, Hc, eqb_refl, Hr. unfold Handlers.loadChat. rewrite Hg.
  unfold Handlers.pushMessage.
  cbn [App.currentChatId App.messages App.chats App.setMessages App.setChats].
  split; [exact Hc|]. split; [|reflexivity].
  unfold currentListed.
  cbn [App.currentChatId App.messages App.chats App.setMessages App.setChats].
  rewrite Hc. intros (chat & Hin & Hid).
  rewrite <- Hr in Hin. apply filter_In in Hin as [_ Hne].
  apply (proj2 (eqb_eq _ _)) in Hid. rewrite Hid in Hne. discriminate Hne.
Qed.

Lemma deleted_chat_stays_current_when_load_fails_witness :
  let getChat := fun _ : jsstring => @Throw App.Chat boom in
  let deleteChatCall := fun _ : jsstring => Normal tt in
  (deleteChatCall (lit "a") = Normal tt
   /\ App.currentChatId (Handlers.app ready) = Some (lit "a")
   /\ filter (fun chat => negb (JS.eqb (App.id chat) (lit "a")))
             (App.chats (Handlers.app ready)) = chatB :: []
   /\ getChat (App.id chatB) = Throw boom)
  /\ App.currentChatId
       (Handlers.deleteChat noFormat getChat deleteChatCall (lit "a")
          (Handlers.app ready)) = Some (lit "a").
Proof.
  intros getChat deleteChatCall.
  assert (H1 : deleteChatCall (lit "a") = Normal tt) by reflexivity.
  assert (H2 : App.currentChatId (Handlers.app ready) = Some (lit "a"))
    by reflexivity.
  assert (H3 : filter (fun chat => negb (JS.eqb (App.id chat) (lit "a")))
                 (App.chats (Handlers.app ready)) = chatB :: [])
    by reflexivity.
  assert (H4 : getChat (App.id chatB) = Throw boom) by reflexivity.
  split; [repeat split; assumption|].
  exact (proj1 (deleted_chat_stays_current_when_load_fails noFormat getChat
                  deleteChatCall (lit "a") (Handlers.app ready) chatB []
                  boom H1 H2 H3 H4)).
Defined.

Section Selection.



End Selection.



(** X21.  A [chat_rollover] event that names the new chat never interrupts
    the loop: the new chat becomes the current one, the SQL is blanked, the
    notice is added to the transcript and the tool list is left alone; the
    chat list is the refreshed one, and when [listChats] rejects it is the
    old list, so that the current chat need not be in it. *)
Theorem rollover_never_interrupts
  (listChats : Completion (list App.Chat))
  (format : jsstring -> Completion jsstring) (now : Z) (st : App.State)
  (ev : App.SSEEvent) (c : N) (cs : jsstring) :
  App.event ev = lit "chat_rollover" ->
  App.newChatId (App.data ev) = Some (c :: cs) ->
  exists st',
    App.onEvent listChats format now st ev = Normal st'
    /\ App.currentChatId st' = Some (c :: cs)
    /\ App.currentSql st' = []
    /\ App.chats st' = match listChats with
                       | Normal updatedChats => updatedChats
                       | Throw _ => App.chats st
                       end
    /\ App.messages st'
       = App.messages st ++ [App.mkMessage App.model App.rolloverNotice]
    /\ App.activeTools st' = App.activeTools st.
Proof.
  intros He Hn. unfold App.onEvent. rewrite He, Hn.
  change (JS.eqb (lit "chat_rollover") (lit "tool")) with false.
  change (JS.eqb (lit "chat_rollover") (lit "context")) with false.
  change (JS.eqb (lit "chat_rollover") (lit "chat_rollover")) with true.
  cbn [andb App.truthy nonEmpty]. eexists. split; [reflexivity|].
  unfold App.refreshChatList. destruct listChats; repeat split.
Qed.

Lemma rollover_never_interrupts_witness :
  (App.event (rolloverEvent "chat-2") = lit "chat_rollover"
   /\ App.newChatId (App.data (rolloverEvent "chat-2"))
      = Some (99%N :: lit "hat-2"))
  /\ exists st',
       App.onEvent (Throw boom) noFormat 1000 opened (rolloverEvent "chat-2")
       = Normal st'
       /\ App.currentChatId st' = Some (lit "chat-2")
       /\ ~ currentListed st'.
Proof.
  assert (H1 : App.event (rolloverEvent "chat-2") = lit "chat_rollover")
    by reflexivity.
  assert (H2 : App.newChatId (App.data (rolloverEvent "chat-2"))
               = Some (99%N :: lit "hat-2")) by reflexivity.
  split; [split; assumption|].
  destruct (rollover_never_interrupts (Throw boom) noFormat 1000 opened
              (rolloverEvent "chat-2") 99%N (lit "hat-2") H1 H2)
    as (st' & E & Hc & _ & Hl & _).
  exists st'. split; [exact E|]. split; [exact Hc|].
  unfold currentListed. rewrite Hc, Hl. intros (chat & [] & _).
Defined.
